(** * SageDialogEnhance v6: the batch transcode core

    A shallow embedding of [src/SageDialogEnhancev6.py]: the Media Prober
    ([VideoProcessor.get_audio_info]), the Filter Chain Builder
    ([VideoProcessor.build_audio_filter]), the Transcode Worker
    ([VideoProcessor.process_video]) and the Batch Orchestrator
    ([VideoProcessorApp.run_processing]), together with the two UI-thread
    operations that touch the state they share with the worker thread
    ([stop_processing] and [apply_settings]).

    Text is modelled by Rocq strings.  The character classes of the Python
    built-ins ([str.strip], [str.splitlines], [str.isdigit]) are given on the
    ASCII range, which is what ffprobe and ffmpeg print; a character above 127
    is an ordinary character.  Paths follow the POSIX flavour of [pathlib]. *)

From Stdlib Require Import Bool List Arith NArith ZArith Lia.
From Stdlib Require Import Ascii String DecimalString DecimalN DecimalNat.
Import ListNotations.

Local Open Scope list_scope.
Local Open Scope string_scope.

(* ================================================================== *)
(** * Python string built-ins *)
(* ================================================================== *)

Module Py.

(** [str.isspace] on one ASCII character: TAB, LF, VT, FF, CR, the four
    separators FS, GS, RS, US and the blank. *)
Definition isspace (c : ascii) : bool :=
  let n := nat_of_ascii c in
  (((9 <=? n) && (n <=? 13)) || ((28 <=? n) && (n <=? 32)))%nat.

(** The line boundaries of [str.splitlines] on ASCII: LF, VT, FF, CR, FS,
    GS, RS (US is white space but no line boundary). *)
Definition is_linebreak (c : ascii) : bool :=
  let n := nat_of_ascii c in
  (((10 <=? n) && (n <=? 13)) || ((28 <=? n) && (n <=? 30)))%nat.

Definition is_cr (c : ascii) : bool := (nat_of_ascii c =? 13)%nat.
Definition is_lf (c : ascii) : bool := (nat_of_ascii c =? 10)%nat.

Definition is_decimal (c : ascii) : bool :=
  let n := nat_of_ascii c in ((48 <=? n) && (n <=? 57))%nat.

Fixpoint lstrip (s : string) : string :=
  match s with
  | EmptyString => EmptyString
  | String c s' => if isspace c then lstrip s' else s
  end.

Fixpoint rstrip (s : string) : string :=
  match s with
  | EmptyString => EmptyString
  | String c s' =>
      match rstrip s' with
      | EmptyString => if isspace c then EmptyString else String c EmptyString
      | r => String c r
      end
  end.

(** [s.strip()] *)
Definition strip (s : string) : string := rstrip (lstrip s).

(** [s.splitlines()]: [cur] is the line read so far.  CR LF counts as one
    boundary; a final boundary opens no empty last line. *)
Fixpoint splitlines_from (cur : string) (s : string) : list string :=
  match s with
  | EmptyString =>
      match cur with EmptyString => [] | _ => [cur] end
  | String c s' =>
      if is_cr c then
        match s' with
        | String c' s'' =>
            if is_lf c' then cur :: splitlines_from EmptyString s''
            else cur :: splitlines_from EmptyString s'
        | EmptyString => [cur]
        end
      else if is_linebreak c then cur :: splitlines_from EmptyString s'
      else splitlines_from (cur ++ String c EmptyString) s'
  end.

Definition splitlines (s : string) : list string :=
  splitlines_from EmptyString s.

Fixpoint all_decimal (s : string) : bool :=
  match s with
  | EmptyString => true
  | String c s' => is_decimal c && all_decimal s'
  end.

(** [s.isdigit()]: at least one character, and every one a digit. *)
Definition isdigit (s : string) : bool :=
  match s with
  | EmptyString => false
  | _ => all_decimal s
  end.

Definition digit_value (c : ascii) : Z := Z.of_nat (nat_of_ascii c) - 48.

Fixpoint int_digits (acc : Z) (s : string) : option Z :=
  match s with
  | EmptyString => Some acc
  | String c s' =>
      if is_decimal c then int_digits (10 * acc + digit_value c) s'
      else None
  end.

(** [int(s)] on a literal without white space or underscores: an optional
    sign and at least one decimal digit; [None] stands for [ValueError]. *)
Definition int (s : string) : option Z :=
  match s with
  | EmptyString => None
  | String c d =>
      if Ascii.eqb c "-" then
        match d with
        | EmptyString => None
        | _ => option_map Z.opp (int_digits 0 d)
        end
      else if Ascii.eqb c "+" then
        match d with
        | EmptyString => None
        | _ => int_digits 0 d
        end
      else int_digits 0 s
  end.

(** [str(n)] for an integer. *)
Definition str (n : Z) : string :=
  match n with
  | Z0 => "0"
  | Zpos p => NilEmpty.string_of_uint (Pos.to_uint p)
  | Zneg p => String "-" (NilEmpty.string_of_uint (Pos.to_uint p))
  end.

(** [sub in s] *)
Fixpoint contains (sub s : string) : bool :=
  String.prefix sub s ||
  match s with
  | EmptyString => false
  | String _ s' => contains sub s'
  end.

(** [sep.join(parts)] *)
Fixpoint join (sep : string) (parts : list string) : string :=
  match parts with
  | [] => EmptyString
  | [p] => p
  | p :: rest => p ++ sep ++ join sep rest
  end.

Fixpoint endswith_char (c : ascii) (s : string) : bool :=
  match s with
  | EmptyString => false
  | String a EmptyString => Ascii.eqb a c
  | String _ s' => endswith_char c s'
  end.

(** [s.split(sep)] for a one-character separator. *)
Fixpoint split_from (sep : ascii) (cur : string) (s : string) : list string :=
  match s with
  | EmptyString => [cur]
  | String c s' =>
      if Ascii.eqb c sep then cur :: split_from sep EmptyString s'
      else split_from sep (cur ++ String c EmptyString) s'
  end.

Definition split (sep : ascii) (s : string) : list string :=
  split_from sep EmptyString s.

(** [s.rpartition(c)], [None] when [c] does not occur: the text before and
    after the last [c]. *)
Fixpoint rpartition (c : ascii) (s : string) : option (string * string) :=
  match s with
  | EmptyString => None
  | String a s' =>
      match rpartition c s' with
      | Some (h, t) => Some (String a h, t)
      | None => if Ascii.eqb a c then Some (EmptyString, s') else None
      end
  end.

Definition is_empty (s : string) : bool :=
  match s with EmptyString => true | _ => false end.

Definition startswith_char (c : ascii) (s : string) : bool :=
  match s with
  | String a _ => Ascii.eqb a c
  | EmptyString => false
  end.

End Py.


(* ================================================================== *)
(** * Paths ([pathlib], POSIX flavour, on the normalised strings that
      [add_to_list] stores in [file_list]) *)
(* ================================================================== *)

Module Path.

(** [Path(p).name] and [os.path.basename(p)] *)
Definition name (p : string) : string :=
  match Py.rpartition "/" p with
  | Some (_, t) => t
  | None => p
  end.

(** [Path(p).parent] *)
Definition parent (p : string) : string :=
  match Py.rpartition "/" p with
  | Some (EmptyString, _) => "/"
  | Some (h, _) => h
  | None => "."
  end.

(** [Path(p).stem]: the name up to its last dot, when that dot is neither
    the first nor the last character of the name. *)
Definition stem (p : string) : string :=
  let n := name p in
  match Py.rpartition "." n with
  | Some (h, t) => if Py.is_empty h || Py.is_empty t then n else h
  | None => n
  end.

(** [a / b]: an absolute right operand replaces the left one. *)
Definition join (a b : string) : string :=
  if Py.startswith_char "/" b then b
  else if String.eqb a "." then b
  else if Py.endswith_char "/" a then a ++ b
  else a ++ "/" ++ b.

End Path.

(* ================================================================== *)
(** * Configuration *)
(* ================================================================== *)

(** One entry of [equalizer_bands]: the dict keys ["f"], ["t"], ["w"],
    ["g"], all strings, passed through verbatim. *)
Record band : Type := Band {
  band_f : string;
  band_t : string;
  band_w : string;
  band_g : string
}.

(** The [speechnorm] dict: keys ["e"], ["r"], ["l"]. *)
Record speechnorm : Type := Speechnorm {
  sn_e : string;
  sn_r : string;
  sn_l : string
}.

(** [VideoProcessorApp.config_vars] *)
Record config : Type := Config {
  cv_supported_extensions : list string;
  cv_equalizer_bands : list band;
  cv_speechnorm : speechnorm;
  cv_output_folder : string;
  cv_output_suffix : string
}.

Definition DEFAULT_SUPPORTED_EXTENSIONS : list string := [".mkv"; ".mp4"; ".mov"].

Definition DEFAULT_EQUALIZER_BANDS : list band :=
  [ Band "50" "q" "2" "-12"; Band "100" "q" "2" "-10"; Band "150" "q" "2" "-6" ].

Definition DEFAULT_SPEECHNORM : speechnorm := Speechnorm "6.25" "0.00001" "1".

Definition DEFAULT_OUTPUT_FOLDER : string := "processed".
Definition DEFAULT_OUTPUT_SUFFIX : string := "_enhanced.mkv".

Definition PROCESSING_DONE_TOKEN : string := "__PROCESSING_DONE__".

(** [VideoProcessorApp.__init__]: the initial [config_vars]. *)
Definition default_config : config :=
  Config DEFAULT_SUPPORTED_EXTENSIONS DEFAULT_EQUALIZER_BANDS DEFAULT_SPEECHNORM
         DEFAULT_OUTPUT_FOLDER DEFAULT_OUTPUT_SUFFIX.

(** The contents of the entry widgets of the Settings tab.  Every band dict
    carries its own four entry variables; [band_vars] lists their contents
    band by band. *)
Record settings_form : Type := Form {
  extensions_var : string;
  band_vars : list band;
  sn_vars : speechnorm;
  folder_var : string;
  suffix_var : string
}.

(** [x or default] on strings. *)
Definition or_default (x default : string) : string :=
  if Py.is_empty x then default else x.

(** [VideoProcessorApp.apply_settings] (the message box apart). *)
Definition apply_settings (form : settings_form) (cv : config) : config :=
  {| cv_supported_extensions :=
       filter (fun e => Py.startswith_char "." e)
              (map Py.strip (Py.split "," (extensions_var form)));
     cv_equalizer_bands :=
       map snd (combine (cv_equalizer_bands cv) (band_vars form));
     cv_speechnorm := sn_vars form;
     cv_output_folder := or_default (Py.strip (folder_var form)) DEFAULT_OUTPUT_FOLDER;
     cv_output_suffix := or_default (Py.strip (suffix_var form)) DEFAULT_OUTPUT_SUFFIX |}.

(** The immutable attributes of a [VideoProcessor]; its two mutable
    attributes, [_stop_event] and [_current_process], live in the [world]
    below. *)
Record VideoProcessor : Type := {
  supported_extensions : list string;
  equalizer_bands : list band;
  speechnorm_params : speechnorm;
  output_folder : string;
  output_suffix : string
}.

(* ================================================================== *)
(** * The Filter Chain Builder *)
(* ================================================================== *)

(** The f-string of one loop iteration. *)
Definition eq_str (b : band) : string :=
  "equalizer=f=" ++ band_f b ++ ":t=" ++ band_t b ++ ":w=" ++ band_w b
    ++ ":g=" ++ band_g b.

Definition sn_str (sn : speechnorm) : string :=
  "speechnorm=e=" ++ sn_e sn ++ ":r=" ++ sn_r sn ++ ":l=" ++ sn_l sn.

(** The [for band in self.equalizer_bands] loop: [eqs] is the list built so
    far, [eqs.append] adds at its end. *)
Fixpoint append_bands (eqs : list string) (bands : list band) : list string :=
  match bands with
  | [] => eqs
  | b :: rest => append_bands (eqs ++ [eq_str b])%list rest
  end.

(** [VideoProcessor.build_audio_filter] *)
Definition build_audio_filter (p : VideoProcessor) : string :=
  let eqs := append_bands [] (equalizer_bands p) in
  let sn := speechnorm_params p in
  Py.join "," (eqs ++ [sn_str sn])%list.

(** The builder in the words of the specification: one clause per band in
    list order, then one normalisation clause, joined by the separator. *)
Definition buildFilterChain_spec (bands : list band) (norm : speechnorm) : string :=
  String.concat "," (map eq_str bands ++ [sn_str norm])%list.

(* ================================================================== *)
(** * Events, the shared state and the environment *)
(* ================================================================== *)

Inductive progress_kind : Type := file_progress | overall_progress.

(** What the worker thread and the UI thread do to the outside, in the
    order in which it happens: the three queues and the calls on external
    processes. *)
Inductive event : Type :=
| Log (msg : string)                       (* log_queue.put(msg) *)
| Debug (msg : string)                     (* debug_queue.put(msg) *)
| Progress (k : progress_kind) (v : nat)   (* progress_queue.put((k, v)) *)
| Probe (cmd : list string)                (* subprocess.run(cmd, ...) *)
| Spawn (cmd : list string)                (* subprocess.Popen(cmd, ...) returned *)
| Terminate                                (* _current_process.terminate() *)
| Wait (returncode : Z).                   (* _current_process.wait() returned *)

(** The terminal states that section 4.3 of the specification gives to the
    return points of [process_video]; the source returns [returned o]. *)
Inductive outcome : Type := Succeeded | Failed | Stopped.

Definition returned (o : outcome) : bool :=
  match o with Succeeded => true | Failed | Stopped => false end.

(** What became of one iteration of the orchestrator's loop.  The source
    discards the result of [process_video]; the model keeps it as
    bookkeeping. *)
Inductive job_result : Type := Skipped | Worked (o : outcome).

Record world : Type := World {
  _stop_event : bool;            (* VideoProcessor._stop_event *)
  _current_process : bool;       (* is VideoProcessor._current_process set *)
  config_vars : config;          (* VideoProcessorApp.config_vars, shared with the UI *)
  events : list event;           (* everything emitted so far, oldest first *)
  results : list job_result      (* bookkeeping, one entry per finished iteration *)
}.

(** Actions of the UI thread while the batch runs. *)
Inductive ui_action : Type :=
| UiStop                           (* the Stop button *)
| UiApply (form : settings_form).  (* the Apply Settings button *)

(** What the process prints, interleaved with what the UI thread does in
    the meantime. *)
Inductive stream_event : Type :=
| Out (line : string)
| Ui (a : ui_action).

Inductive probe_result : Type :=
| ProbeRaises (msg : string)   (* ffprobe absent, not spawned, non-zero exit *)
| ProbeOk (stdout : string).

Inductive spawn_result : Type :=
| SpawnRaises (msg : string)
| Spawned (stream : list stream_event) (during_wait : list ui_action)
          (returncode : Z).

(** The file system as one iteration sees it: [mkdir(exist_ok=True)] raises,
    or the directory is there and the output file exists or not. *)
Inductive fs_answer : Type :=
| MkdirRaises (msg : string)
| OutputExists
| OutputAbsent.

(** The environment of one iteration: the answers of the outside world and
    the UI-thread actions that fall between the points at which the worker
    thread reads the shared state. *)
Record job_env : Type := JobEnv {
  ui_at_head : list ui_action;        (* before the stop check of line 481 *)
  ui_before_paths : list ui_action;   (* before config_vars is read, line 485 *)
  fs : fs_answer;
  ui_before_worker : list ui_action;  (* before the stop check of line 114 *)
  probe : probe_result;
  ui_before_spawn : list ui_action;   (* before Popen returns *)
  spawn : spawn_result
}.

(** An exception (a subclass of [Exception]) with its [str(e)]. *)
Record exn : Type := Exn { message : string }.

Inductive result (A : Type) : Type :=
| Ok (a : A)
| Raised (e : exn).
Arguments Ok {A} a.
Arguments Raised {A} e.

(** Computations of the worker thread: state passing with exceptions. *)
Definition M (A : Type) : Type := world -> result A * world.

Definition ret {A} (a : A) : M A := fun w => (Ok a, w).

Definition bind {A B} (m : M A) (k : A -> M B) : M B :=
  fun w => match m w with
           | (Ok a, w') => k a w'
           | (Raised e, w') => (Raised e, w')
           end.

Definition raise {A} (e : exn) : M A := fun w => (Raised e, w).

(** [try: body except Exception as e: handler(e)] *)
Definition try_except {A} (body : M A) (handler : exn -> M A) : M A :=
  fun w => match body w with
           | (Ok a, w') => (Ok a, w')
           | (Raised e, w') => handler e w'
           end.

(** [try: body finally: fin] *)
Definition try_finally {A} (body : M A) (fin : M unit) : M A :=
  fun w => match body w with
           | (r, w') =>
               match fin w' with
               | (Ok _, w'') => (r, w'')
               | (Raised e, w'') => (Raised e, w'')
               end
           end.

Declare Scope m_scope.
Delimit Scope m_scope with M.
Notation "x <- m ;; k" := (bind m (fun x => k))
  (at level 61, m at next level, right associativity) : m_scope.
Notation "' pat <- m ;; k" := (bind m (fun x => match x with pat => k end))
  (at level 61, pat pattern, m at next level, right associativity) : m_scope.
Notation "m ;; k" := (bind m (fun _ => k))
  (at level 61, right associativity) : m_scope.
Local Open Scope m_scope.

Definition emit (e : event) : M unit :=
  fun w => (Ok tt, World (_stop_event w) (_current_process w) (config_vars w)
                         (events w ++ [e])%list (results w)).

Definition get_stop : M bool := fun w => (Ok (_stop_event w), w).
Definition get_config : M config := fun w => (Ok (config_vars w), w).

Definition set_stop (b : bool) : M unit :=
  fun w => (Ok tt, World b (_current_process w) (config_vars w) (events w) (results w)).

Definition set_current_process (b : bool) : M unit :=
  fun w => (Ok tt, World (_stop_event w) b (config_vars w) (events w) (results w)).

Definition set_config (cv : config) : M unit :=
  fun w => (Ok tt, World (_stop_event w) (_current_process w) cv (events w) (results w)).

Definition record_result (r : job_result) : M unit :=
  fun w => (Ok tt, World (_stop_event w) (_current_process w) (config_vars w)
                         (events w) (results w ++ [r])%list).

Definition nl : string := String (ascii_of_nat 10) EmptyString.

(* ================================================================== *)
(** * The UI thread *)
(* ================================================================== *)

(** [VideoProcessor.stop_processing]; an [OSError] of [terminate] is
    swallowed. *)
Definition stop_processing : M unit :=
  set_stop true ;;
  fun w => if _current_process w then emit Terminate w else (Ok tt, w).

Definition STOPPING_MESSAGE : string := "[STOPPING] User requested to stop...".
Definition STOPPED_MESSAGE : string := "[STOPPED] Process was stopped by user.".

(** One action of the UI thread: [VideoProcessorApp.stop_processing] (the
    processor exists while the batch runs) or [apply_settings]. *)
Definition ui (a : ui_action) : M unit :=
  match a with
  | UiStop =>
      emit (Log STOPPING_MESSAGE) ;;
      stop_processing
  | UiApply form =>
      cv <- get_config ;;
      set_config (apply_settings form cv)
  end.

Fixpoint ui_all (l : list ui_action) : M unit :=
  match l with
  | [] => ret tt
  | a :: rest => ui a ;; ui_all rest
  end.

(* ================================================================== *)
(** * The Media Prober *)
(* ================================================================== *)

Definition ffprobe_cmd (input_file : string) : list string :=
  [ "ffprobe"; "-v"; "error";
    "-select_streams"; "a:0";
    "-show_entries"; "stream=codec_name,bit_rate";
    "-of"; "default=noprint_wrappers=1:nokey=1";
    input_file ].

(** [subprocess.run(cmd, capture_output=True, text=True, check=True)] *)
Definition subprocess_run (pr : probe_result) (cmd : list string) : M string :=
  emit (Probe cmd) ;;
  match pr with
  | ProbeRaises msg => raise (Exn msg)
  | ProbeOk stdout => ret stdout
  end.

(** [int(s)], raising [ValueError] *)
Definition int_or_raise (s : string) : M Z :=
  match Py.int s with
  | Some n => ret n
  | None => raise (Exn ("invalid literal for int() with base 10: '" ++ s ++ "'"))
  end.

(** [VideoProcessor.get_audio_info] *)
Definition get_audio_info (pr : probe_result) (input_file : string)
  : M (string * string) :=
  let cmd := ffprobe_cmd input_file in
  try_except
    (stdout <- subprocess_run pr cmd ;;
     emit (Debug ("[DEBUG] Audio info: " ++ Py.strip stdout)) ;;
     let lines := Py.splitlines (Py.strip stdout) in
     let codec := if (0 <? List.length lines)%nat then nth 0 lines "" else "aac" in
     bitrate <-
       (if (1 <? List.length lines)%nat && Py.isdigit (nth 1 lines "")
        then n <- int_or_raise (nth 1 lines "") ;;
             ret (Py.str (n / 1000) ++ "k")
        else ret "192k") ;;
     ret (codec, bitrate))
    (fun e =>
       emit (Debug ("[DEBUG] Audio info error: " ++ message e)) ;;
       ret ("aac", "192k")).

(* ================================================================== *)
(** * The Transcode Worker *)
(* ================================================================== *)

(** [VideoProcessor._parse_progress] *)
Definition _parse_progress (line : string) : M unit :=
  if Py.contains "out_time_ms=" line then emit (Progress file_progress 50)
  else if Py.contains "progress=end" line then emit (Progress file_progress 100)
  else ret tt.

(** After [break]: the rest of the output is not read; what the UI thread
    does meanwhile still happens. *)
Fixpoint unread (rest : list stream_event) : M unit :=
  match rest with
  | [] => ret tt
  | Out _ :: rest' => unread rest'
  | Ui a :: rest' => ui a ;; unread rest'
  end.

(** [for line in self._current_process.stdout: ...]; the stream is decoded
    with [errors='replace'], so reading a line does not raise. *)
Fixpoint read_output (stream : list stream_event) : M unit :=
  match stream with
  | [] => ret tt
  | Ui a :: rest => ui a ;; read_output rest
  | Out raw :: rest =>
      stop <- get_stop ;;
      if stop then unread rest                          (* break *)
      else
        let line := Py.strip raw in
        if Py.is_empty line then read_output rest       (* continue *)
        else
          (if Py.contains "progress=" line || Py.contains "out_time_ms=" line
           then _parse_progress line else ret tt) ;;
          emit (Debug line) ;;
          read_output rest
  end.

Definition ffmpeg_cmd (input_path codec bitrate audio_filters output_path : string)
  : list string :=
  [ "ffmpeg"; "-y"; "-i"; input_path;
    "-c:v"; "copy"; "-c:a"; codec; "-b:a"; bitrate;
    "-af"; audio_filters;
    "-progress"; "pipe:1";
    output_path ].

(** [VideoProcessor.process_video] *)
Definition process_video (p : VideoProcessor) (env : job_env)
    (input_path output_path : string) : M outcome :=
  stop <- get_stop ;;
  if stop then ret Stopped                               (* line 115 *)
  else
    '(codec, bitrate) <- get_audio_info (probe env) input_path ;;
    let audio_filters := build_audio_filter p in
    let cmd := ffmpeg_cmd input_path codec bitrate audio_filters output_path in
    emit (Log (nl ++ "[PROCESSING] " ++ Path.name input_path)) ;;
    emit (Debug ("[DEBUG] Command: " ++ Py.join " " cmd)) ;;
    try_finally
      (try_except
         (ui_all (ui_before_spawn env) ;;
          match spawn env with
          | SpawnRaises msg => raise (Exn msg)
          | Spawned stream during_wait returncode =>
              emit (Spawn cmd) ;;
              set_current_process true ;;
              read_output stream ;;
              ui_all during_wait ;;
              emit (Wait returncode) ;;
              stop <- get_stop ;;
              if stop then
                emit (Log STOPPED_MESSAGE) ;;
                ret Stopped                              (* line 156 *)
              else if (returncode =? 0)%Z then
                emit (Log ("[SUCCESS] " ++ Path.name output_path)) ;;
                emit (Progress file_progress 100) ;;
                ret Succeeded                            (* line 161 *)
              else
                emit (Log ("[FAILED] FFmpeg exited with error code: "
                             ++ Py.str returncode)) ;;
                ret Failed                               (* line 164 *)
          end)
         (fun e =>
            emit (Debug ("[DEBUG] Process crash: " ++ message e)) ;;
            emit (Log ("[CRASH] " ++ message e)) ;;
            ret Failed))                                 (* line 169 *)
      (set_current_process false).

(* ================================================================== *)
(** * The Batch Orchestrator *)
(* ================================================================== *)

(** The body of the loop of [run_processing] from line 483 on. *)
Definition run_job (p : VideoProcessor) (env : job_env)
    (total_files i : nat) (input_path : string) : M unit :=
  emit (Log ("Starting file " ++ Py.str (Z.of_nat (i + 1)) ++ " of "
               ++ Py.str (Z.of_nat total_files) ++ ": " ++ Path.name input_path)) ;;
  emit (Progress file_progress 0) ;;
  ui_all (ui_before_paths env) ;;
  cv <- get_config ;;
  let output_folder := Path.join (Path.parent input_path) (cv_output_folder cv) in
  let input_stem := Path.stem input_path in
  let output_name := input_stem ++ cv_output_suffix cv in
  let output_path := Path.join output_folder output_name in
  match fs env with
  | MkdirRaises msg => raise (Exn msg)
  | OutputExists =>
      emit (Log ("[SKIP] Exists: " ++ output_name)) ;;
      record_result Skipped
  | OutputAbsent =>
      ui_all (ui_before_worker env) ;;
      o <- process_video p env input_path output_path ;;
      record_result (Worked o)
  end ;;
  emit (Progress overall_progress (i + 1)).

(** [for i, input_path in enumerate(self.file_list): ...]; [env i] is the
    environment of iteration [i]. *)
Fixpoint run_loop (p : VideoProcessor) (env : nat -> job_env)
    (total_files i : nat) (file_list : list string) : M unit :=
  match file_list with
  | [] => ret tt
  | input_path :: rest =>
      ui_all (ui_at_head (env i)) ;;
      stop <- get_stop ;;
      if stop then ret tt                                (* break *)
      else
        run_job p (env i) total_files i input_path ;;
        run_loop p env total_files (i + 1) rest
  end.

(** [VideoProcessorApp.run_processing] *)
Definition run_processing (p : VideoProcessor) (env : nat -> job_env)
    (file_list : list string) : M unit :=
  try_finally
    (try_except
       (let total_files := List.length file_list in
        run_loop p env total_files 0 file_list)
       (fun e => emit (Log (nl ++ "[CRITICAL THREAD ERROR] " ++ message e))))
    (emit (Log PROCESSING_DONE_TOKEN)).

(** The [VideoProcessor(...)] call of [start_processing]: the band dicts
    and the speechnorm dict are copied, the other three values are passed
    as they are. *)
Definition new_VideoProcessor (cv : config) : VideoProcessor :=
  {| supported_extensions := cv_supported_extensions cv;
     equalizer_bands := cv_equalizer_bands cv;
     speechnorm_params := cv_speechnorm cv;
     output_folder := cv_output_folder cv;
     output_suffix := cv_output_suffix cv |}.

(** The state in which the processing thread starts: a fresh processor has
    [_stop_event = False] and no process. *)
Definition initial_world (cv : config) : world :=
  World false false cv [] [].

(** [VideoProcessorApp.start_processing] followed by the run of the thread
    it starts: the settings are applied, the two guards may refuse to
    start, the processor takes its copies. *)
Definition start_processing (form : settings_form) (cv : config)
    (file_list : list string) (thread_alive : bool) (env : nat -> job_env)
  : option (result unit * world) :=
  let cv' := apply_settings form cv in
  match file_list with
  | [] => None
  | _ =>
      if thread_alive then None
      else Some (run_processing (new_VideoProcessor cv') env file_list
                                (initial_world cv'))
  end.

(** The [Job.state] of section 3 of the specification, read off the
    bookkeeping: an iteration that ran has its result, a job the loop never
    finished is still pending. *)
Inductive job_state : Type :=
| JPending | JSucceeded | JFailed | JStopped | JSkipped.

Definition state_of_result (r : job_result) : job_state :=
  match r with
  | Skipped => JSkipped
  | Worked Succeeded => JSucceeded
  | Worked Failed => JFailed
  | Worked Stopped => JStopped
  end.

Definition job_states (total_files : nat) (w : world) : list job_state :=
  (map state_of_result (results w)
     ++ repeat JPending (total_files - List.length (results w)))%list.

(** The three queues, read off the events. *)
Definition log_of (e : event) : option string :=
  match e with Log m => Some m | _ => None end.

Fixpoint log_queue (es : list event) : list string :=
  match es with
  | [] => []
  | Log m :: rest => m :: log_queue rest
  | _ :: rest => log_queue rest
  end.

Fixpoint spawned (es : list event) : list (list string) :=
  match es with
  | [] => []
  | Spawn cmd :: rest => cmd :: spawned rest
  | _ :: rest => spawned rest
  end.

Definition is_external (e : event) : bool :=
  match e with
  | Probe _ | Spawn _ | Terminate | Wait _ => true
  | _ => false
  end.

(* ================================================================== *)
(** * Notions used to state the properties *)
(* ================================================================== *)

(** The world after the events [es] have been emitted. *)
Definition emits (es : list event) (w : world) : world :=
  World (_stop_event w) (_current_process w) (config_vars w)
        (events w ++ es)%list (results w).

Definition digit_char (d : Z) : ascii := ascii_of_nat (48 + Z.to_nat d).

(** In the words of the specification, "the line consists of a non-negative
    integer": [numeral s n] holds when [s] is a non-empty sequence of decimal
    digits that denotes [n] in positional notation. *)
Inductive numeral : string -> Z -> Prop :=
| numeral_digit (d : Z) :
    (0 <= d <= 9)%Z -> numeral (String (digit_char d) EmptyString) d
| numeral_snoc (s : string) (n d : Z) :
    numeral s n -> (0 <= d <= 9)%Z ->
    numeral (s ++ String (digit_char d) EmptyString) (10 * n + d).

(** The lines that the prober sees in the captured output. *)
Definition probe_lines (stdout : string) : list string :=
  Py.splitlines (Py.strip stdout).

(** A computation keeps the relation [R] between the world it starts in
    and the world it leaves, whether it returns or raises. *)
Definition preserves (R : world -> world -> Prop) {A : Type} (m : M A) : Prop :=
  forall w r w', m w = (r, w') -> R w w'.

(** The events of [w'] are those of [w] followed by events that all
    satisfy [Q]. *)
Definition extends_by (Q : event -> Prop) (w w' : world) : Prop :=
  exists es, events w' = (events w ++ es)%list /\ Forall Q es.

(** What the UI thread and the reading of the output emit. *)
Definition ui_or_output (e : event) : Prop :=
  match e with
  | Log m => m = STOPPING_MESSAGE
  | Debug _ | Progress _ _ | Terminate => True
  | _ => False
  end.

(** What the UI thread emits. *)
Definition ui_event (e : event) : Prop :=
  e = Log STOPPING_MESSAGE \/ e = Terminate.

Definition not_done (e : event) : Prop := e <> Log PROCESSING_DONE_TOKEN.

Definition stop_stays (w w' : world) : Prop :=
  _stop_event w = true -> _stop_event w' = true.

(** A computation never raises. *)
Definition never_raises {A : Type} (m : M A) : Prop :=
  forall w, exists a w', m w = (Ok a, w').

(** The events by which the Prober or the Worker call on an external
    program. *)
Definition invokes (e : event) : bool :=
  match e with
  | Probe _ | Spawn _ => true
  | _ => false
  end.

(** What [get_audio_info] returns when the probe printed these lines
    (lemma [get_audio_info_ok]). *)
Definition audio_info_of_lines (lines : list string) : string * string :=
  let codec := if (0 <? List.length lines)%nat then nth 0 lines "" else "aac" in
  if (1 <? List.length lines)%nat && Py.isdigit (nth 1 lines "") then
    match Py.int (nth 1 lines "") with
    | Some n => (codec, Py.str (n / 1000) ++ "k")
    | None => ("aac", "192k")
    end
  else (codec, "192k").

(* ================================================================== *)
(** * Concrete inputs used by the examples and counterexamples *)
(* ================================================================== *)

Definition trailing_comma_processor : VideoProcessor :=
  {| supported_extensions := DEFAULT_SUPPORTED_EXTENSIONS;
     equalizer_bands := [];
     speechnorm_params := Speechnorm "6.25" "0.00001" "1,";
     output_folder := DEFAULT_OUTPUT_FOLDER;
     output_suffix := DEFAULT_OUTPUT_SUFFIX |}.




Definition typical_probe_output : string := "aac" ++ nl ++ "128999" ++ nl.

(* ================================================================== *)
(** * Notions used to state the properties of the worker *)
(* ================================================================== *)

(** No Stop among the actions of the UI thread. *)
Definition no_stop (l : list ui_action) : bool :=
  forallb (fun a => match a with UiStop => false | UiApply _ => true end) l.

Fixpoint output_lines (stream : list stream_event) : list string :=
  match stream with
  | [] => []
  | Out raw :: rest => raw :: output_lines rest
  | Ui _ :: rest => output_lines rest
  end.

Fixpoint stream_actions (stream : list stream_event) : list ui_action :=
  match stream with
  | [] => []
  | Out _ :: rest => stream_actions rest
  | Ui a :: rest => a :: stream_actions rest
  end.

(** The progress events that one trimmed line stands for. *)
Definition progress_events (line : string) : list event :=
  if Py.contains "out_time_ms=" line then [Progress file_progress 50]
  else if Py.contains "progress=end" line then [Progress file_progress 100]
  else [].

(** What reading one raw line puts on the queues. *)
Definition line_events (raw : string) : list event :=
  let line := Py.strip raw in
  if Py.is_empty line then []
  else (progress_events line ++ [Debug line])%list.

Fixpoint debug_queue (es : list event) : list string :=
  match es with
  | [] => []
  | Debug m :: rest => m :: debug_queue rest
  | _ :: rest => debug_queue rest
  end.

Fixpoint progress_queue (es : list event) : list (progress_kind * nat) :=
  match es with
  | [] => []
  | Progress k v :: rest => (k, v) :: progress_queue rest
  | _ :: rest => progress_queue rest
  end.

(** What the prober returns and emits, by the answer of ffprobe. *)
Definition probe_info (pr : probe_result) : string * string :=
  match pr with
  | ProbeRaises _ => ("aac", "192k")
  | ProbeOk stdout => audio_info_of_lines (probe_lines stdout)
  end.

Definition probe_events (pr : probe_result) (input_file : string) : list event :=
  match pr with
  | ProbeRaises msg =>
      [Probe (ffprobe_cmd input_file); Debug ("[DEBUG] Audio info error: " ++ msg)]
  | ProbeOk stdout =>
      [Probe (ffprobe_cmd input_file);
       Debug ("[DEBUG] Audio info: " ++ Py.strip stdout)]
  end.

(** The command that the worker builds for one job. *)
Definition job_cmd (p : VideoProcessor) (env : job_env)
    (input_path output_path : string) : list string :=
  ffmpeg_cmd input_path (fst (probe_info (probe env))) (snd (probe_info (probe env)))
             (build_audio_filter p) output_path.

(** What the worker emits before it spawns ffmpeg. *)
Definition announce_events (p : VideoProcessor) (env : job_env)
    (input_path output_path : string) : list event :=
  (probe_events (probe env) input_path
     ++ [Log (nl ++ "[PROCESSING] " ++ Path.name input_path);
         Debug ("[DEBUG] Command: "
                  ++ Py.join " " (job_cmd p env input_path output_path))])%list.

(** How the worker resolves the exit code when no stop was requested. *)
Definition exit_outcome (returncode : Z) : outcome :=
  if (returncode =? 0)%Z then Succeeded else Failed.

Definition exit_events (returncode : Z) (output_path : string) : list event :=
  if (returncode =? 0)%Z
  then [Log ("[SUCCESS] " ++ Path.name output_path); Progress file_progress 100]
  else [Log ("[FAILED] FFmpeg exited with error code: " ++ Py.str returncode)].

Definition is_spawn_or_wait (e : event) : bool :=
  match e with
  | Spawn _ | Wait _ => true
  | _ => false
  end.

(** A world that differs from [w] in its [config_vars] only. *)
Definition with_config (cv : config) (w : world) : world :=
  World (_stop_event w) (_current_process w) cv (events w) (results w).

(** Sample process output. *)
Definition sample_output : list stream_event :=
  [ Out ("frame=  10 fps=0.0" ++ nl); Out ("   " ++ nl);
    Ui (UiApply (Form ".mkv" [] DEFAULT_SPEECHNORM "out" "_x.mkv"));
    Out ("out_time_ms=400000" ++ nl); Out ("progress=end" ++ nl) ].

Definition late_output : list stream_event :=
  [ Out ("out_time_ms=400000" ++ nl); Ui UiStop; Out ("progress=end" ++ nl) ].


(** The body of the [try] of [process_video] and its [except] branch, as
    [process_video] spells them out (lemma [process_video_started]). *)
Definition worker_attempt (env : job_env) (cmd : list string)
    (output_path : string) : M outcome :=
  ui_all (ui_before_spawn env) ;;
  match spawn env with
  | SpawnRaises msg => raise (Exn msg)
  | Spawned stream during_wait returncode =>
      emit (Spawn cmd) ;;
      set_current_process true ;;
      read_output stream ;;
      ui_all during_wait ;;
      emit (Wait returncode) ;;
      stop <- get_stop ;;
      if stop then
        emit (Log STOPPED_MESSAGE) ;;
        ret Stopped
      else if (returncode =? 0)%Z then
        emit (Log ("[SUCCESS] " ++ Path.name output_path)) ;;
        emit (Progress file_progress 100) ;;
        ret Succeeded
      else
        emit (Log ("[FAILED] FFmpeg exited with error code: "
                     ++ Py.str returncode)) ;;
        ret Failed
  end.

Definition worker_crash (e : exn) : M outcome :=
  emit (Debug ("[DEBUG] Process crash: " ++ message e)) ;;
  emit (Log ("[CRASH] " ++ message e)) ;;
  ret Failed.

Definition quiet_env (stream : list stream_event) (returncode : Z) : job_env :=
  JobEnv [] [] OutputAbsent [] (ProbeOk typical_probe_output) []
         (Spawned stream [] returncode).

Definition no_ffmpeg_env : job_env :=
  JobEnv [] [] OutputAbsent [] (ProbeRaises "ffprobe not found") []
         (SpawnRaises "ffmpeg not found").

Definition same_results (w w' : world) : Prop := results w' = results w.

(** A form as a user may leave it: blanks around the entries, an extension
    without its dot, an empty folder entry. *)
Definition untidy_form : settings_form :=
  Form " .mkv , mp4,.MOV ,, ." DEFAULT_EQUALIZER_BANDS DEFAULT_SPEECHNORM
       "   " " _clean.mkv ".

Definition leads_with_space (s : string) : bool :=
  match s with
  | String c _ => Py.isspace c
  | EmptyString => false
  end.

Fixpoint ends_with_space (s : string) : bool :=
  match s with
  | EmptyString => false
  | String c EmptyString => Py.isspace c
  | String _ s' => ends_with_space s'
  end.

(* ================================================================== *)
(** * The file list of the application *)
(* ================================================================== *)

Module PurePath.

(** The parts of [Path(s)] below its root: the pieces between slashes,
    without the empty ones and the single dots. *)
Definition parts (s : string) : list string :=
  filter (fun x => negb (Py.is_empty x || String.eqb x "."))
         (Py.split "/" s).

(** The root of [Path(s)]: exactly two leading slashes are kept, any other
    number of them is one. *)
Definition root (s : string) : string :=
  match s with
  | String a (String b rest) =>
      if Ascii.eqb a "/" then
        if Ascii.eqb b "/" then
          if Py.startswith_char "/" rest then "/" else "//"
        else "/"
      else ""
  | String a EmptyString => if Ascii.eqb a "/" then "/" else ""
  | EmptyString => ""
  end.

(** [str(Path(s))] *)
Definition str (s : string) : string :=
  match parts s with
  | [] => if Py.is_empty (root s) then "." else root s
  | ps => root s ++ Py.join "/" ps
  end.

(** [Path(s).name] *)
Definition name (s : string) : string := last (parts s) "".

(** [Path(s).suffix]: from the last dot of the name on, when that dot is
    neither the first nor the last character of the name. *)
Definition suffix (s : string) : string :=
  match Py.rpartition "." (name s) with
  | Some (h, t) => if Py.is_empty h || Py.is_empty t then "" else "." ++ t
  | None => ""
  end.

End PurePath.

Definition lower_char (c : ascii) : ascii :=
  let n := nat_of_ascii c in
  if ((65 <=? n) && (n <=? 90))%nat then ascii_of_nat (n + 32) else c.

(** [s.lower()] on ASCII *)
Fixpoint lower (s : string) : string :=
  match s with
  | EmptyString => EmptyString
  | String c s' => String (lower_char c) (lower s')
  end.

(** [x in l] for strings *)
Definition str_in (x : string) (l : list string) : bool :=
  existsb (String.eqb x) l.

(** [self.file_list] and the lines inserted into [self.file_box]. *)
Record file_state : Type := FileState {
  file_list : list string;
  file_box : list string
}.

(** [VideoProcessorApp.add_to_list] *)
Fixpoint add_to_list (files : list string) (st : file_state) : file_state :=
  match files with
  | [] => st
  | f :: rest =>
      let f_path := PurePath.str f in
      if negb (str_in f_path (file_list st)) then
        add_to_list rest
          {| file_list := (file_list st ++ [f_path])%list;
             file_box := (file_box st ++ [(PurePath.name f ++ nl)%string])%list |}
      else add_to_list rest st
  end.

(** [VideoProcessorApp.clear_list] *)
Definition clear_list (st : file_state) : file_state := FileState [] [].

(** [VideoProcessorApp.on_drop], on the list that [splitlist] gives. *)
Definition on_drop (exts : list string) (files : list string) (st : file_state)
  : file_state :=
  add_to_list
    (filter (fun f => str_in (lower (PurePath.suffix f)) exts) files) st.

Definition dropped_files : list string :=
  ["/v/a.MP4"; "/v//a.MP4"; "/v/notes"; "/v/b.mkv"; "/v/./b.mkv"; "/v/c.txt"].

(* ================================================================== *)
(** * The consumer of the queues *)
(* ================================================================== *)

(** The widgets that [process_events] writes: the texts inserted into the
    two panes, the values of the two bars, the status label and the states
    of the two buttons. *)
Record gui : Type := Gui {
  log_text : list string;
  debug_text : list string;
  file_progress_value : nat;
  overall_progress_value : nat;
  status_label : string;
  process_btn_enabled : bool;
  stop_btn_enabled : bool
}.

(** [VideoProcessorApp.log] *)
Definition log (message : string) (g : gui) : gui :=
  Gui (log_text g ++ [(message ++ nl)%string])%list (debug_text g) (file_progress_value g)
      (overall_progress_value g) (status_label g) (process_btn_enabled g)
      (stop_btn_enabled g).

(** [VideoProcessorApp.debug] *)
Definition debug (message : string) (g : gui) : gui :=
  Gui (log_text g) (debug_text g ++ [(message ++ nl)%string])%list (file_progress_value g)
      (overall_progress_value g) (status_label g) (process_btn_enabled g)
      (stop_btn_enabled g).

(** [VideoProcessorApp.on_processing_finished]; [stopped] tells whether a
    processor exists and its stop flag is set. *)
Definition on_processing_finished (stopped : bool) (g : gui) : gui :=
  Gui (log_text g) (debug_text g) 0 (overall_progress_value g)
      (if stopped then "Stopped by user" else "Finished!") true false.

Definition set_progress (item : progress_kind * nat) (g : gui) : gui :=
  match item with
  | (file_progress, value) =>
      Gui (log_text g) (debug_text g) value (overall_progress_value g)
          (status_label g) (process_btn_enabled g) (stop_btn_enabled g)
  | (overall_progress, value) =>
      Gui (log_text g) (debug_text g) (file_progress_value g) value
          (status_label g) (process_btn_enabled g) (stop_btn_enabled g)
  end.

Definition take_log (stopped : bool) (g : gui) (msg : string) : gui :=
  if String.eqb msg PROCESSING_DONE_TOKEN then on_processing_finished stopped g
  else log msg g.

(** One pass of [VideoProcessorApp.process_events] over what the three
    queues hold: the log queue first, then the debug queue, then the
    progress queue. *)
Definition process_events (stopped : bool)
    (log_q debug_q : list string) (progress_q : list (progress_kind * nat))
    (g : gui) : gui :=
  let g1 := fold_left (take_log stopped) log_q g in
  let g2 := fold_left (fun g msg => debug msg g) debug_q g1 in
  fold_left (fun g item => set_progress item g) progress_q g2.

(** The last value queued for one of the bars. *)
Fixpoint last_progress (k : progress_kind) (q : list (progress_kind * nat))
  : option nat :=
  match q with
  | [] => None
  | (k', v) :: rest =>
      match last_progress k rest with
      | Some v' => Some v'
      | None =>
          match k, k' with
          | file_progress, file_progress => Some v
          | overall_progress, overall_progress => Some v
          | _, _ => None
          end
      end
  end.

Definition displayed (msgs : list string) : list string :=
  map (fun m => m ++ nl) msgs.

Definition is_done (msg : string) : bool := String.eqb msg PROCESSING_DONE_TOKEN.

Definition idle_gui : gui := Gui [] [] 50 0 "Starting..." false true.

(* ================================================================== *)
(** * The command-line script ([src/SageDialogEnhance.py]) *)
(* ================================================================== *)

Module Cli.

(** The digits of an [int] literal, where single underscores may stand
    between digits; [prev] tells whether the character before was a
    digit. *)
Fixpoint digits (acc : Z) (prev : bool) (s : string) : option Z :=
  match s with
  | EmptyString => if prev then Some acc else None
  | String c s' =>
      if Py.is_decimal c then digits (10 * acc + Py.digit_value c) true s'
      else if Ascii.eqb c "_" then
        (if prev then digits acc false s' else None)
      else None
  end.

(** [int(s)] in full: white space around the literal is ignored, a sign
    may lead, digits may be grouped by single underscores; [None] stands
    for [ValueError]. *)
Definition int (s : string) : option Z :=
  match Py.strip s with
  | EmptyString => None
  | String c d =>
      if Ascii.eqb c "-" then option_map Z.opp (digits 0 false d)
      else if Ascii.eqb c "+" then digits 0 false d
      else digits 0 false (String c d)
  end.

(** [get_audio_info] of the script: what it returns and what it prints.
    The bit rate is [None] when the probe printed one line only or a rate
    of 0; a second line that is no integer raises inside the [try] and
    gives the default pair. *)
Definition get_audio_info (pr : probe_result) (input_file : string)
  : (string * option string) * list string :=
  let started := "[DEBUG] Getting audio info for: " ++ input_file in
  let attempt : result (string * option string) * list string :=
    match pr with
    | ProbeRaises msg => (Raised (Exn msg), [])
    | ProbeOk stdout =>
        let printed := ["[DEBUG] ffprobe output:" ++ nl ++ stdout] in
        let lines := Py.splitlines (Py.strip stdout) in
        let codec_name := if (0 <? List.length lines)%nat then nth 0 lines "" else "aac" in
        if (1 <? List.length lines)%nat then
          match int (nth 1 lines "") with
          | None =>
              (Raised (Exn ("invalid literal for int() with base 10: '"
                              ++ nth 1 lines "" ++ "'")), printed)
          | Some bitrate_bps =>
              (Ok (codec_name,
                   if (bitrate_bps =? 0)%Z then None
                   else Some (Py.str (bitrate_bps / 1000) ++ "k")), printed)
          end
        else (Ok (codec_name, None), printed)
    end in
  match attempt with
  | (Ok info, printed) => (info, started :: printed)
  | (Raised e, printed) =>
      (("aac", Some "192k"),
       (started :: printed
          ++ [("[ERROR] Failed to get audio info: " ++ message e)%string])%list)
  end.

Definition AUDIO_FILTERS : string :=
  "acompressor=threshold=-25dB:ratio=6:attack=10:release=200,"
    ++ "equalizer=f=3000:t=q:w=1:g=3,"
    ++ "equalizer=f=100:t=q:w=1:g=-3,"
    ++ "loudnorm,"
    ++ "volume=5dB".

(** The command that [process_video] of the script builds. *)
Definition process_video_cmd (input_file output_file codec : string)
    (bitrate : option string) : list string :=
  (["ffmpeg"; "-y"; "-i"; input_file; "-c:v"; "copy"; "-c:a"; codec]
     ++ match bitrate with
        | Some b => if Py.is_empty b then [] else ["-b:a"; b]
        | None => []
        end
     ++ ["-af"; AUDIO_FILTERS; "-threads"; "0"; output_file])%list.

End Cli.

Definition spaced_bitrate_output : string := "aac" ++ nl ++ "  128_000" ++ nl ++ "stereo".

(* ================================================================== *)
(** * Sequences of operations on the file list *)
(* ================================================================== *)

(** What the user can do to the file list: Add Files, a drop (with the
    extensions configured at that moment), Clear List. *)
Inductive list_op : Type :=
| OpAdd (files : list string)
| OpDrop (exts files : list string)
| OpClear.

Definition apply_op (st : file_state) (op : list_op) : file_state :=
  match op with
  | OpAdd files => add_to_list files st
  | OpDrop exts files => on_drop exts files st
  | OpClear => clear_list st
  end.

(** [VideoProcessorApp.__init__]: the list and the box start empty. *)
Definition empty_file_state : file_state := FileState [] [].
(* ================================================================== *)
(** * Strings: auxiliary facts *)
(* ================================================================== *)

Lemma string_app_nil_r (s : string) : s ++ "" = s.
Proof. induction s as [|c s IH]; simpl; [reflexivity | now rewrite IH]. Qed.

Lemma string_app_assoc (a b c : string) : (a ++ b) ++ c = a ++ (b ++ c).
Proof. induction a as [|x a IH]; simpl; [reflexivity | now rewrite IH]. Qed.

Lemma endswith_char_app (c : ascii) (a : string) (x : ascii) (b : string) :
  Py.endswith_char c (a ++ String x b) = Py.endswith_char c (String x b).
Proof.
  induction a as [|y a IH]; [reflexivity|].
  change ((String y a) ++ String x b) with (String y (a ++ String x b)).
  cbn [Py.endswith_char]. rewrite IH.
  destruct a; reflexivity.
Qed.

Lemma endswith_char_literal (c : ascii) (a : string) (x : ascii) (b : string) :
  Py.endswith_char c (a ++ String x EmptyString ++ b)
  = match b with
    | EmptyString => Ascii.eqb x c
    | _ => Py.endswith_char c b
    end.
Proof.
  change (String x EmptyString ++ b) with (String x b).
  rewrite endswith_char_app. destruct b; reflexivity.
Qed.

(* ================================================================== *)
(** * The Filter Chain Builder: properties *)
(* ================================================================== *)

Example build_audio_filter_default :
  build_audio_filter (new_VideoProcessor default_config)
  = "equalizer=f=50:t=q:w=2:g=-12,equalizer=f=100:t=q:w=2:g=-10,equalizer=f=150:t=q:w=2:g=-6,speechnorm=e=6.25:r=0.00001:l=1".
Proof. reflexivity. Qed.

(** The append loop adds the clauses of the bands, in their order, behind
    what was there. *)
Lemma append_bands_map (bands : list band) :
  forall eqs, append_bands eqs bands = (eqs ++ map eq_str bands)%list.
Proof.
  induction bands as [|b rest IH]; intros eqs; simpl.
  - now rewrite app_nil_r.
  - rewrite IH, <- app_assoc. reflexivity.
Qed.

Lemma join_concat (sep : string) (parts : list string) :
  Py.join sep parts = String.concat sep parts.
Proof.
  induction parts as [|x rest IH]; [reflexivity|].
  destruct rest as [|y rest]; [reflexivity|].
  change (Py.join sep (x :: y :: rest)) with (x ++ sep ++ Py.join sep (y :: rest)).
  now rewrite IH.
Qed.

Lemma build_audio_filter_clauses (p : VideoProcessor) :
  build_audio_filter p
  = Py.join "," (map eq_str (equalizer_bands p) ++ [sn_str (speechnorm_params p)])%list.
Proof. unfold build_audio_filter. now rewrite append_bands_map. Qed.

(** C4.  For every configuration the builder is a function of the bands
    and the speechnorm parameters alone (no other attribute of the
    processor and no state enters it), and its result is the clause of each
    band in the configured list order, followed by exactly one speechnorm
    clause, all joined by the separator [","]. *)
Theorem C4_build_audio_filter_order :
  forall (bands : list band) (sn : speechnorm),
    (forall exts folder suffix,
        build_audio_filter
          {| supported_extensions := exts; equalizer_bands := bands;
             speechnorm_params := sn; output_folder := folder;
             output_suffix := suffix |}
        = buildFilterChain_spec bands sn)
    /\ List.length (map eq_str bands ++ [sn_str sn])%list = S (List.length bands)
    /\ removelast (map eq_str bands ++ [sn_str sn])%list = map eq_str bands
    /\ last (map eq_str bands ++ [sn_str sn])%list "" = sn_str sn.
Proof.
  intros bands sn. split; [|split; [|split]].
  - intros exts folder suffix. rewrite build_audio_filter_clauses. simpl.
    unfold buildFilterChain_spec. apply join_concat.
  - rewrite length_app, length_map. simpl. lia.
  - apply removelast_last.
  - apply last_last.
Qed.

Lemma join_starts (sep : string) (x : string) (rest : list string) :
  exists tail, Py.join sep (x :: rest) = x ++ tail.
Proof.
  destruct rest as [|y rest].
  - exists "". simpl. now rewrite string_app_nil_r.
  - exists (sep ++ Py.join sep (y :: rest)). reflexivity.
Qed.

Lemma join_ends (sep : string) (parts : list string) (z : string) :
  exists head, Py.join sep (parts ++ [z])%list = head ++ z.
Proof.
  induction parts as [|x rest IH].
  - exists "". reflexivity.
  - destruct IH as [h Hh].
    destruct rest as [|y rest].
    + exists (x ++ sep). simpl. now rewrite string_app_assoc.
    + exists (x ++ sep ++ h).
      change (Py.join sep ((x :: y :: rest) ++ [z])%list)
        with (x ++ sep ++ Py.join sep ((y :: rest) ++ [z])%list).
      rewrite Hh. now rewrite !string_app_assoc.
Qed.

(** C10, as stated, fails: with no band and the link-channels entry ["1,"]
    the result has a trailing [","]. *)
Lemma C10_trailing_comma_counterexample :
  equalizer_bands trailing_comma_processor = []
  /\ build_audio_filter trailing_comma_processor = "speechnorm=e=6.25:r=0.00001:l=1,"
  /\ Py.endswith_char "," (build_audio_filter trailing_comma_processor) = true.
Proof. repeat split. Qed.

(** C10, amended.  The builder is total; with an empty band list it returns
    exactly the single speechnorm clause, the join adding no separator; for
    any number of bands the result never begins with [","], and it ends
    with [","] exactly when the link-channels parameter, which is passed
    through verbatim, ends with [","]. *)
Theorem C10_build_audio_filter_edges :
  forall (p : VideoProcessor),
    (forall exts sn folder suffix,
        build_audio_filter
          {| supported_extensions := exts; equalizer_bands := [];
             speechnorm_params := sn; output_folder := folder;
             output_suffix := suffix |}
        = sn_str sn)
    /\ Py.startswith_char "," (build_audio_filter p) = false
    /\ Py.endswith_char "," (build_audio_filter p)
       = Py.endswith_char "," (sn_l (speechnorm_params p)).
Proof.
  intros p. split; [|split].
  - reflexivity.
  - rewrite build_audio_filter_clauses.
    destruct (equalizer_bands p) as [|b rest]; [reflexivity|].
    destruct (join_starts "," (eq_str b)
                (map eq_str rest ++ [sn_str (speechnorm_params p)])%list) as [t Ht].
    change (map eq_str (b :: rest) ++ [sn_str (speechnorm_params p)])%list
      with (eq_str b :: (map eq_str rest ++ [sn_str (speechnorm_params p)]))%list.
    rewrite Ht. reflexivity.
  - rewrite build_audio_filter_clauses.
    destruct (join_ends "," (map eq_str (equalizer_bands p))
                (sn_str (speechnorm_params p))) as [h Hh].
    rewrite Hh. unfold sn_str.
    replace (h ++ "speechnorm=e=" ++ sn_e (speechnorm_params p) ++ ":r="
               ++ sn_r (speechnorm_params p) ++ ":l=" ++ sn_l (speechnorm_params p))
      with ((h ++ "speechnorm=e=" ++ sn_e (speechnorm_params p) ++ ":r="
               ++ sn_r (speechnorm_params p) ++ ":l")
              ++ String "=" EmptyString ++ sn_l (speechnorm_params p)).
    + rewrite endswith_char_literal.
      destruct (sn_l (speechnorm_params p)); reflexivity.
    + rewrite !string_app_assoc. reflexivity.
Qed.

(* ================================================================== *)
(** * Decimal numerals *)
(* ================================================================== *)

Lemma is_decimal_not_sign (c : ascii) :
  Py.is_decimal c = true -> Ascii.eqb c "-" = false /\ Ascii.eqb c "+" = false.
Proof.
  intros H. split.
  - destruct (Ascii.eqb_spec c "-") as [->|]; [discriminate H | reflexivity].
  - destruct (Ascii.eqb_spec c "+") as [->|]; [discriminate H | reflexivity].
Qed.

Lemma digit_char_decimal (d : Z) :
  (0 <= d <= 9)%Z ->
  Py.is_decimal (digit_char d) = true /\ Py.digit_value (digit_char d) = d.
Proof.
  intros H.
  assert (d = 0 \/ d = 1 \/ d = 2 \/ d = 3 \/ d = 4 \/ d = 5 \/ d = 6
          \/ d = 7 \/ d = 8 \/ d = 9)%Z as Hd by lia.
  repeat (destruct Hd as [-> | Hd]; [split; reflexivity|]).
  subst d. split; reflexivity.
Qed.

Lemma decimal_digit_char (c : ascii) :
  Py.is_decimal c = true ->
  (0 <= Py.digit_value c <= 9)%Z /\ c = digit_char (Py.digit_value c).
Proof.
  unfold Py.is_decimal, Py.digit_value, digit_char. intros H.
  apply andb_true_iff in H. destruct H as [H1 H2].
  apply Nat.leb_le in H1. apply Nat.leb_le in H2.
  split; [lia|].
  replace (48 + Z.to_nat (Z.of_nat (nat_of_ascii c) - 48))%nat
    with (nat_of_ascii c) by lia.
  now rewrite ascii_nat_embedding.
Qed.

Lemma all_decimal_app (a b : string) :
  Py.all_decimal (a ++ b) = Py.all_decimal a && Py.all_decimal b.
Proof.
  induction a as [|c a IH]; simpl; [reflexivity|].
  rewrite IH. now rewrite andb_assoc.
Qed.

Lemma int_digits_app (a b : string) :
  forall acc,
    Py.int_digits acc (a ++ b)
    = match Py.int_digits acc a with
      | Some v => Py.int_digits v b
      | None => None
      end.
Proof.
  induction a as [|c a IH]; intros acc; simpl; [reflexivity|].
  destruct (Py.is_decimal c); [apply IH | reflexivity].
Qed.

Lemma isdigit_all_decimal (s : string) :
  Py.isdigit s = true <-> s <> "" /\ Py.all_decimal s = true.
Proof.
  destruct s as [|c s]; simpl.
  - split; [discriminate | intros [H _]; now elim H].
  - split; [intros H; split; [discriminate | exact H] | intros [_ H]; exact H].
Qed.

Lemma int_of_decimals (c : ascii) (s : string) :
  Py.is_decimal c = true -> Py.int (String c s) = Py.int_digits 0 (String c s).
Proof.
  intros H. destruct (is_decimal_not_sign c H) as [H1 H2].
  unfold Py.int. now rewrite H1, H2.
Qed.

(** A numeral passes [isdigit], and [int] reads its value. *)
Lemma numeral_sound (s : string) (n : Z) :
  numeral s n ->
  s <> "" /\ Py.all_decimal s = true /\ Py.int_digits 0 s = Some n /\ (0 <= n)%Z.
Proof.
  induction 1 as [d Hd | s n d Hs IH Hd].
  - destruct (digit_char_decimal d Hd) as [H1 H2].
    repeat split.
    + discriminate.
    + cbn [Py.all_decimal]. now rewrite H1.
    + cbn [Py.int_digits]. rewrite H1, H2. f_equal.
    + lia.
  - destruct IH as (Hne & Hall & Hint & Hpos).
    destruct (digit_char_decimal d Hd) as [H1 H2].
    repeat split.
    + destruct s; [now elim Hne | discriminate].
    + rewrite all_decimal_app, Hall. cbn [Py.all_decimal]. now rewrite H1.
    + rewrite int_digits_app, Hint. cbn [Py.int_digits]. now rewrite H1, H2.
    + lia.
Qed.


Lemma numeral_int (s : string) (n : Z) : numeral s n -> Py.int s = Some n.
Proof.
  intros H. destruct (numeral_sound s n H) as (Hne & Hall & Hint & _).
  destruct s as [|c s]; [now elim Hne|].
  simpl in Hall. apply andb_true_iff in Hall. destruct Hall as [Hc _].
  now rewrite int_of_decimals.
Qed.

Lemma numeral_extend (s : string) :
  forall p n, numeral p n -> Py.all_decimal s = true ->
              exists m, numeral (p ++ s) m.
Proof.
  induction s as [|c s IH]; intros p n Hp Hall.
  - exists n. now rewrite string_app_nil_r.
  - simpl in Hall. apply andb_true_iff in Hall. destruct Hall as [Hc Hs].
    destruct (decimal_digit_char c Hc) as [Hr Heq].
    destruct (IH (p ++ String c EmptyString) (10 * n + Py.digit_value c)%Z) as [m Hm].
    + rewrite Heq at 1. now apply numeral_snoc.
    + exact Hs.
    + exists m. rewrite string_app_assoc in Hm. exact Hm.
Qed.

(** Whatever passes [isdigit] is a numeral. *)
Lemma isdigit_numeral (s : string) :
  Py.isdigit s = true -> exists n, numeral s n.
Proof.
  intros H. apply isdigit_all_decimal in H. destruct H as [Hne Hall].
  destruct s as [|c s]; [now elim Hne|].
  simpl in Hall. apply andb_true_iff in Hall. destruct Hall as [Hc Hs].
  destruct (decimal_digit_char c Hc) as [Hr Heq].
  destruct (numeral_extend s (String c EmptyString) (Py.digit_value c)) as [m Hm].
  - rewrite Heq at 1. now apply numeral_digit.
  - exact Hs.
  - exists m. exact Hm.
Qed.






(* ================================================================== *)
(** * Running computations *)
(* ================================================================== *)

Lemma emit_run (e : event) (w : world) : emit e w = (Ok tt, emits [e] w).
Proof. reflexivity. Qed.

Lemma emits_app (a b : list event) (w : world) :
  emits b (emits a w) = emits (a ++ b) w.
Proof. unfold emits. simpl. now rewrite app_assoc. Qed.

Lemma emits_nil (w : world) : emits [] w = w.
Proof. destruct w. unfold emits. simpl. now rewrite app_nil_r. Qed.

Lemma bind_ok {A B} (m : M A) (k : A -> M B) (w w' : world) (a : A) :
  m w = (Ok a, w') -> bind m k w = k a w'.
Proof. intros H. unfold bind. now rewrite H. Qed.

Lemma bind_raised {A B} (m : M A) (k : A -> M B) (w w' : world) (e : exn) :
  m w = (Raised e, w') -> bind m k w = (Raised e, w').
Proof. intros H. unfold bind. now rewrite H. Qed.

(* ================================================================== *)
(** * The Media Prober: properties *)
(* ================================================================== *)

Example get_audio_info_typical :
  fst (get_audio_info (ProbeOk typical_probe_output) "/v/a.mp4"
         (initial_world default_config))
  = Ok ("aac", "128k").
Proof. reflexivity. Qed.

Lemma get_audio_info_raises (msg input_file : string) (w : world) :
  get_audio_info (ProbeRaises msg) input_file w
  = (Ok ("aac", "192k"),
     emits [Probe (ffprobe_cmd input_file);
            Debug ("[DEBUG] Audio info error: " ++ msg)] w).
Proof.
  unfold get_audio_info, try_except, subprocess_run, bind, raise, ret, emit, emits.
  simpl. rewrite <- app_assoc. reflexivity.
Qed.

Lemma get_audio_info_ok (stdout input_file : string) (w : world) :
  get_audio_info (ProbeOk stdout) input_file w
  = (Ok (audio_info_of_lines (probe_lines stdout)),
     emits [Probe (ffprobe_cmd input_file);
            Debug ("[DEBUG] Audio info: " ++ Py.strip stdout)] w).
Proof.
  unfold get_audio_info, try_except, subprocess_run, bind, ret, emit, emits.
  cbn [_stop_event _current_process config_vars events results].
  rewrite <- app_assoc. cbn [app].
  unfold audio_info_of_lines, probe_lines, int_or_raise.
  destruct ((1 <? List.length (Py.splitlines (Py.strip stdout)))%nat
            && Py.isdigit (nth 1 (Py.splitlines (Py.strip stdout)) "")) eqn:Hd.
  - apply andb_true_iff in Hd. destruct Hd as [_ Hd].
    destruct (isdigit_numeral _ Hd) as [n Hn].
    rewrite (numeral_int _ _ Hn). reflexivity.
  - reflexivity.
Qed.







(* ================================================================== *)
(** * The UI thread and the output loop never raise *)
(* ================================================================== *)

Lemma ui_ok (a : ui_action) (w : world) : ui a w = (Ok tt, snd (ui a w)).
Proof.
  destruct a; unfold ui, stop_processing, bind, set_stop, get_config, set_config, emit;
    cbn [_current_process]; [|reflexivity].
  destruct (_current_process w); reflexivity.
Qed.

Lemma bind_ok_snd {A B} (m : M A) (k : A -> M B) (w : world) (a : A) :
  m w = (Ok a, snd (m w)) -> bind m k w = k a (snd (m w)).
Proof. intros H. unfold bind. rewrite H. reflexivity. Qed.

Lemma ui_all_ok (l : list ui_action) :
  forall w, ui_all l w = (Ok tt, snd (ui_all l w)).
Proof.
  induction l as [|a l IH]; intros w; [reflexivity|].
  cbn [ui_all]. rewrite (bind_ok_snd _ _ _ tt (ui_ok a w)). apply IH.
Qed.

Lemma unread_ok (rest : list stream_event) :
  forall w, unread rest w = (Ok tt, snd (unread rest w)).
Proof.
  induction rest as [|[line|a] rest IH]; intros w; [reflexivity | apply IH |].
  cbn [unread]. rewrite (bind_ok_snd _ _ _ tt (ui_ok a w)). apply IH.
Qed.

Lemma _parse_progress_ok (line : string) (w : world) :
  _parse_progress line w = (Ok tt, snd (_parse_progress line w)).
Proof.
  unfold _parse_progress.
  destruct (Py.contains "out_time_ms=" line); [reflexivity|].
  destruct (Py.contains "progress=end" line); reflexivity.
Qed.

Lemma emit_ok (e : event) (w : world) : emit e w = (Ok tt, snd (emit e w)).
Proof. reflexivity. Qed.

Lemma read_output_ok (stream : list stream_event) :
  forall w, read_output stream w = (Ok tt, snd (read_output stream w)).
Proof.
  induction stream as [|[raw|a] stream IH]; intros w; [reflexivity | |].
  - cbn [read_output].
    rewrite (bind_ok get_stop _ w w (_stop_event w) eq_refl).
    destruct (_stop_event w); [apply unread_ok|].
    destruct (Py.is_empty (Py.strip raw)); [apply IH|].
    destruct (Py.contains "progress=" (Py.strip raw)
              || Py.contains "out_time_ms=" (Py.strip raw)).
    + rewrite (bind_ok_snd _ _ _ tt (_parse_progress_ok _ w)).
      rewrite (bind_ok_snd _ _ _ tt (emit_ok _ _)). apply IH.
    + rewrite (bind_ok_snd (ret tt) _ _ tt eq_refl).
      rewrite (bind_ok_snd _ _ _ tt (emit_ok _ _)). apply IH.
  - cbn [read_output]. rewrite (bind_ok_snd _ _ _ tt (ui_ok a w)). apply IH.
Qed.

(* ================================================================== *)
(** * Relations kept by every step of the batch *)
(* ================================================================== *)

Section Preservation.

Variable R : world -> world -> Prop.
Variable P : event -> Prop.

Hypothesis R_refl : forall w, R w w.
Hypothesis R_trans : forall a b c, R a b -> R b c -> R a c.
Hypothesis R_emit : forall e w, P e -> R w (emits [e] w).
Hypothesis R_set_stop : forall w, R w (snd (set_stop true w)).
Hypothesis R_set_current : forall b w, R w (snd (set_current_process b w)).
Hypothesis R_set_config : forall cv w, R w (snd (set_config cv w)).
Hypothesis R_record : forall r w, R w (snd (record_result r w)).
Hypothesis P_stopping : P (Log STOPPING_MESSAGE).
Hypothesis P_terminate : P Terminate.
Hypothesis P_debug : forall m, P (Debug m).
Hypothesis P_progress : forall k v, P (Progress k v).
Hypothesis P_wait : forall c, P (Wait c).
Hypothesis P_call : forall e, invokes e = true -> P e.
Hypothesis P_log : forall m, Py.startswith_char "_" m = false -> P (Log m).

Lemma preserves_ret {A} (a : A) : preserves R (ret a).
Proof. intros w r w' H. injection H as _ <-. apply R_refl. Qed.

Lemma preserves_raise {A} (e : exn) : preserves R (@raise A e).
Proof. intros w r w' H. injection H as _ <-. apply R_refl. Qed.

Lemma preserves_bind {A B} (m : M A) (k : A -> M B) :
  preserves R m -> (forall a, preserves R (k a)) -> preserves R (bind m k).
Proof.
  intros Hm Hk w r w' H. unfold bind in H.
  destruct (m w) as [[a|e] w1] eqn:Em.
  - eapply R_trans; [eapply Hm, Em | eapply Hk, H].
  - injection H as _ <-. eapply Hm, Em.
Qed.

Lemma preserves_try_except {A} (body : M A) (handler : exn -> M A) :
  preserves R body -> (forall e, preserves R (handler e)) ->
  preserves R (try_except body handler).
Proof.
  intros Hb Hh w r w' H. unfold try_except in H.
  destruct (body w) as [[a|e] w1] eqn:Eb.
  - injection H as _ <-. eapply Hb, Eb.
  - eapply R_trans; [eapply Hb, Eb | eapply Hh, H].
Qed.

Lemma preserves_try_finally {A} (body : M A) (fin : M unit) :
  preserves R body -> preserves R fin -> preserves R (try_finally body fin).
Proof.
  intros Hb Hf w r w' H. unfold try_finally in H.
  destruct (body w) as [rb w1] eqn:Eb.
  destruct (fin w1) as [[u|e] w2] eqn:Ef;
    injection H as _ <-; (eapply R_trans; [eapply Hb, Eb | eapply Hf, Ef]).
Qed.

Lemma preserves_emit (e : event) : P e -> preserves R (emit e).
Proof. intros He w r w' H. rewrite emit_run in H. injection H as _ <-. now apply R_emit. Qed.

Lemma preserves_get_stop : preserves R get_stop.
Proof. intros w r w' H. injection H as _ <-. apply R_refl. Qed.

Lemma preserves_get_config : preserves R get_config.
Proof. intros w r w' H. injection H as _ <-. apply R_refl. Qed.

Lemma preserves_set_stop : preserves R (set_stop true).
Proof. intros w r w' H. injection H as _ <-. apply R_set_stop. Qed.

Lemma preserves_set_current (b : bool) : preserves R (set_current_process b).
Proof. intros w r w' H. injection H as _ <-. apply R_set_current. Qed.

Lemma preserves_set_config (cv : config) : preserves R (set_config cv).
Proof. intros w r w' H. injection H as _ <-. apply R_set_config. Qed.

Lemma preserves_record (r : job_result) : preserves R (record_result r).
Proof. intros w r0 w' H. injection H as _ <-. apply R_record. Qed.

Ltac step :=
  first
    [ apply preserves_ret
    | apply preserves_raise
    | apply preserves_get_stop
    | apply preserves_get_config
    | apply preserves_set_stop
    | apply preserves_set_current
    | apply preserves_set_config
    | apply preserves_record
    | apply preserves_emit;
      first [ apply P_stopping | apply P_terminate | apply P_debug
            | apply P_progress | apply P_wait
            | apply P_call; reflexivity | apply P_log; reflexivity ]
    | apply preserves_bind; [|intros ?]
    | apply preserves_try_except; [|intros ?]
    | apply preserves_try_finally ].

Lemma preserves_stop_processing : preserves R stop_processing.
Proof.
  unfold stop_processing. apply preserves_bind; [apply preserves_set_stop|].
  intros _ w r w' H. destruct (_current_process w).
  - revert H. apply preserves_emit. apply P_terminate.
  - injection H as _ <-. apply R_refl.
Qed.

Lemma preserves_ui (a : ui_action) : preserves R (ui a).
Proof.
  destruct a; unfold ui.
  - apply preserves_bind; [step | intros _; apply preserves_stop_processing].
  - apply preserves_bind; [step | intros cv; step].
Qed.

Lemma preserves_ui_all (l : list ui_action) : preserves R (ui_all l).
Proof.
  induction l as [|a l IH]; cbn [ui_all]; [step|].
  apply preserves_bind; [apply preserves_ui | intros _; exact IH].
Qed.

Lemma preserves_unread (rest : list stream_event) : preserves R (unread rest).
Proof.
  induction rest as [|[line|a] rest IH]; cbn [unread]; [step | exact IH |].
  apply preserves_bind; [apply preserves_ui | intros _; exact IH].
Qed.

Lemma preserves__parse_progress (line : string) : preserves R (_parse_progress line).
Proof.
  unfold _parse_progress.
  destruct (Py.contains "out_time_ms=" line); [step|].
  destruct (Py.contains "progress=end" line); step.
Qed.

Lemma preserves_read_output (stream : list stream_event) :
  preserves R (read_output stream).
Proof.
  induction stream as [|[raw|a] stream IH]; cbn [read_output].
  - step.
  - apply preserves_bind; [step|]. intros stop.
    destruct stop; [apply preserves_unread|].
    destruct (Py.is_empty (Py.strip raw)); [exact IH|].
    apply preserves_bind.
    + destruct (Py.contains "progress=" (Py.strip raw)
                || Py.contains "out_time_ms=" (Py.strip raw));
        [apply preserves__parse_progress | step].
    + intros _. apply preserves_bind; [step | intros _; exact IH].
  - apply preserves_bind; [apply preserves_ui | intros _; exact IH].
Qed.

Lemma preserves_get_audio_info (pr : probe_result) (input_file : string) :
  preserves R (get_audio_info pr input_file).
Proof.
  unfold get_audio_info, subprocess_run, int_or_raise.
  apply preserves_try_except.
  - apply preserves_bind.
    + apply preserves_bind; [step | intros _; destruct pr; step].
    + intros stdout. apply preserves_bind; [step|]. intros _.
      apply preserves_bind; [|intros bitrate; step].
      destruct ((1 <? List.length (Py.splitlines (Py.strip stdout)))%nat
                && Py.isdigit (nth 1 (Py.splitlines (Py.strip stdout)) "")); [|step].
      apply preserves_bind; [|intros n; step].
      destruct (Py.int _); step.
  - intros e. apply preserves_bind; [step | intros _; step].
Qed.

Lemma preserves_process_video (p : VideoProcessor) (env : job_env)
      (input_path output_path : string) :
  preserves R (process_video p env input_path output_path).
Proof.
  unfold process_video.
  apply preserves_bind; [step|]. intros stop. destruct stop; [step|].
  apply preserves_bind; [apply preserves_get_audio_info|]. intros [codec bitrate].
  apply preserves_bind; [unfold nl; step|]. intros _.
  apply preserves_bind; [step|]. intros _.
  apply preserves_try_finally; [|step].
  apply preserves_try_except.
  - apply preserves_bind; [apply preserves_ui_all|]. intros _.
    destruct (spawn env) as [msg|stream during_wait returncode]; [step|].
    apply preserves_bind; [step|]. intros _.
    apply preserves_bind; [step|]. intros _.
    apply preserves_bind; [apply preserves_read_output|]. intros _.
    apply preserves_bind; [apply preserves_ui_all|]. intros _.
    apply preserves_bind; [step|]. intros _.
    apply preserves_bind; [step|]. intros stop.
    destruct stop.
    + apply preserves_bind; [step | intros _; step].
    + destruct (returncode =? 0)%Z.
      * apply preserves_bind; [step|]. intros _.
        apply preserves_bind; [step | intros _; step].
      * apply preserves_bind; [step | intros _; step].
  - intros e. apply preserves_bind; [step|]. intros _.
    apply preserves_bind; [step | intros _; step].
Qed.

Lemma preserves_run_job (p : VideoProcessor) (env : job_env)
      (total_files i : nat) (input_path : string) :
  preserves R (run_job p env total_files i input_path).
Proof.
  unfold run_job.
  apply preserves_bind; [step|]. intros _.
  apply preserves_bind; [step|]. intros _.
  apply preserves_bind; [apply preserves_ui_all|]. intros _.
  apply preserves_bind; [step|]. intros cv.
  apply preserves_bind; [|intros _; step].
  destruct (fs env).
  - step.
  - apply preserves_bind; [step | intros _; step].
  - apply preserves_bind; [apply preserves_ui_all|]. intros _.
    apply preserves_bind; [apply preserves_process_video | intros o; step].
Qed.

Lemma preserves_run_loop (p : VideoProcessor) (env : nat -> job_env)
      (total_files : nat) (file_list : list string) :
  forall i, preserves R (run_loop p env total_files i file_list).
Proof.
  induction file_list as [|input_path rest IH]; intros i; cbn [run_loop].
  - step.
  - apply preserves_bind; [apply preserves_ui_all|]. intros _.
    apply preserves_bind; [step|]. intros stop.
    destruct stop; [step|].
    apply preserves_bind; [apply preserves_run_job | intros _; apply IH].
Qed.

End Preservation.

(* ================================================================== *)
(** * The output loop of the worker *)
(* ================================================================== *)

Lemma prefix_app_l (a b : string) :
  forall s, String.prefix (a ++ b) s = true -> String.prefix a s = true.
Proof.
  induction a as [|x a IH]; intros s H; [now destruct s|].
  destruct s as [|y s]; [discriminate H|].
  simpl in *. destruct (ascii_dec x y); [now apply IH | discriminate H].
Qed.

Lemma contains_app_l (a b : string) :
  forall s, Py.contains (a ++ b) s = true -> Py.contains a s = true.
Proof.
  induction s as [|y s IH]; intros H.
  - cbn [Py.contains] in *. rewrite orb_false_r in *. now apply prefix_app_l in H.
  - cbn [Py.contains] in *. apply orb_true_iff in H. apply orb_true_iff.
    destruct H as [H|H]; [left; now apply prefix_app_l in H | right; now apply IH].
Qed.

Lemma _parse_progress_run (line : string) (w : world) :
  _parse_progress line w = (Ok tt, emits (progress_events line) w).
Proof.
  unfold _parse_progress, progress_events.
  destruct (Py.contains "out_time_ms=" line); [reflexivity|].
  destruct (Py.contains "progress=end" line); [reflexivity|].
  unfold ret. now rewrite emits_nil.
Qed.

Lemma progress_guard_run (line : string) (w : world) :
  (if Py.contains "progress=" line || Py.contains "out_time_ms=" line
   then _parse_progress line else ret tt) w
  = (Ok tt, emits (progress_events line) w).
Proof.
  rewrite <- _parse_progress_run. unfold _parse_progress.
  destruct (Py.contains "out_time_ms=" line) eqn:H1.
  - now rewrite orb_true_r.
  - rewrite orb_false_r.
    destruct (Py.contains "progress=end" line) eqn:H2.
    + change "progress=end" with ("progress=" ++ "end") in H2.
      now rewrite (contains_app_l _ _ _ H2).
    + now destruct (Py.contains "progress=" line).
Qed.

(** X1.  The test of line 148 never hides a line from [_parse_progress]:
    a line that holds ["progress=end"] also holds ["progress="], so running
    [_parse_progress] on every line would emit the same events.  One line
    gives at most one progress event: 50 when it holds ["out_time_ms="]
    (also when it holds ["progress=end"] as well), 100 when it holds
    ["progress=end"] only, none otherwise. *)
Theorem parse_progress_guard_redundant :
  forall (line : string) (w : world),
    (if Py.contains "progress=" line || Py.contains "out_time_ms=" line
     then _parse_progress line else ret tt) w
    = _parse_progress line w
    /\ _parse_progress line w = (Ok tt, emits (progress_events line) w)
    /\ (List.length (progress_events line) <= 1)%nat
    /\ (Py.contains "out_time_ms=" line = true ->
        progress_events line = [Progress file_progress 50])
    /\ (Py.contains "out_time_ms=" line = false ->
        Py.contains "progress=end" line = true ->
        progress_events line = [Progress file_progress 100])
    /\ (Py.contains "out_time_ms=" line = false ->
        Py.contains "progress=end" line = false ->
        progress_events line = []).
Proof.
  intros line w. split; [|split; [apply _parse_progress_run|]].
  - unfold _parse_progress.
    destruct (Py.contains "out_time_ms=" line) eqn:H1.
    + now rewrite orb_true_r.
    + rewrite orb_false_r.
      destruct (Py.contains "progress=end" line) eqn:H2.
      * change "progress=end" with ("progress=" ++ "end") in H2.
        now rewrite (contains_app_l _ _ _ H2).
      * now destruct (Py.contains "progress=" line).
  - unfold progress_events.
    destruct (Py.contains "out_time_ms=" line);
      destruct (Py.contains "progress=end" line); simpl;
      repeat split; intros; try discriminate; try reflexivity; lia.
Qed.

Lemma parse_progress_guard_redundant_witness :
  progress_events "out_time_ms=1200 progress=end" = [Progress file_progress 50]
  /\ progress_events "progress=end" = [Progress file_progress 100]
  /\ progress_events "progress=continue" = [].
Proof.
  destruct (parse_progress_guard_redundant "out_time_ms=1200 progress=end"
              (initial_world default_config)) as (_ & _ & _ & H50 & _).
  destruct (parse_progress_guard_redundant "progress=end"
              (initial_world default_config)) as (_ & _ & _ & _ & H100 & _).
  destruct (parse_progress_guard_redundant "progress=continue"
              (initial_world default_config)) as (_ & _ & _ & _ & _ & Hnone).
  split; [|split]; [apply H50 | apply H100 | apply Hnone]; reflexivity.
Defined.

Lemma with_config_emits (cv : config) (es : list event) (w : world) :
  emits es (with_config cv w) = with_config cv (emits es w).
Proof. reflexivity. Qed.

Lemma with_config_same (w : world) : with_config (config_vars w) w = w.
Proof. now destruct w. Qed.

Lemma ui_all_no_stop (l : list ui_action) :
  forall w, no_stop l = true ->
            exists cv, ui_all l w = (Ok tt, with_config cv w).
Proof.
  induction l as [|a l IH]; intros w H.
  - exists (config_vars w). unfold ui_all, ret. now rewrite with_config_same.
  - destruct a as [|form]; [discriminate H|]. simpl in H.
    destruct (IH (with_config (apply_settings form (config_vars w)) w) H) as [cv Hcv].
    exists cv. cbn [ui_all].
    rewrite (bind_ok (ui (UiApply form)) _ w
               (with_config (apply_settings form (config_vars w)) w) tt eq_refl).
    exact Hcv.
Qed.

Lemma bind_assoc {A B C} (m : M A) (f : A -> M B) (g : B -> M C) (w : world) :
  bind (bind m f) g w = bind m (fun a => bind (f a) g) w.
Proof. unfold bind. destruct (m w) as [[a|e] w1]; reflexivity. Qed.

Lemma line_run (raw : string) (w : world) :
  Py.is_empty (Py.strip raw) = false ->
  bind (if Py.contains "progress=" (Py.strip raw)
           || Py.contains "out_time_ms=" (Py.strip raw)
        then _parse_progress (Py.strip raw) else ret tt)
       (fun _ => emit (Debug (Py.strip raw))) w
  = (Ok tt, emits (line_events raw) w).
Proof.
  intros H. unfold line_events. rewrite H.
  unfold bind.
  rewrite (progress_guard_run (Py.strip raw) w), emit_run, emits_app. reflexivity.
Qed.

Lemma read_output_quiet (stream : list stream_event) :
  forall w,
    _stop_event w = false ->
    no_stop (stream_actions stream) = true ->
    exists cv,
      read_output stream w
      = (Ok tt, with_config cv (emits (flat_map line_events (output_lines stream)) w)).
Proof.
  induction stream as [|[raw|a] stream IH]; intros w Hstop Hns.
  - exists (config_vars w). simpl. unfold ret. now rewrite emits_nil, with_config_same.
  - cbn [read_output output_lines flat_map].
    rewrite (bind_ok get_stop _ w w (_stop_event w) eq_refl). rewrite Hstop.
    destruct (Py.is_empty (Py.strip raw)) eqn:He.
    + destruct (IH w Hstop Hns) as [cv Hcv]. exists cv. rewrite Hcv.
      unfold line_events. rewrite He. reflexivity.
    + destruct (IH (emits (line_events raw) w) Hstop Hns) as [cv Hcv]. exists cv.
      rewrite <- bind_assoc.
      rewrite (bind_ok _ _ w _ tt (line_run raw w He)).
      rewrite Hcv. now rewrite emits_app.
  - destruct a as [|form]; [discriminate Hns|]. simpl in Hns.
    cbn [read_output output_lines].
    rewrite (bind_ok (ui (UiApply form)) _ w
               (with_config (apply_settings form (config_vars w)) w) tt eq_refl).
    destruct (IH (with_config (apply_settings form (config_vars w)) w) Hstop Hns)
      as [cv Hcv].
    exists cv. rewrite Hcv. reflexivity.
Qed.

(* ================================================================== *)
(** * Two relations: the events grow, the stop flag stays *)
(* ================================================================== *)

Lemma extends_by_refl (Q : event -> Prop) (w : world) : extends_by Q w w.
Proof. exists []. split; [now rewrite app_nil_r | constructor]. Qed.

Lemma extends_by_trans (Q : event -> Prop) (a b c : world) :
  extends_by Q a b -> extends_by Q b c -> extends_by Q a c.
Proof.
  intros (es1 & E1 & F1) (es2 & E2 & F2). exists (es1 ++ es2)%list. split.
  - now rewrite E2, E1, app_assoc.
  - apply Forall_app. now split.
Qed.

Lemma extends_by_emit (Q : event -> Prop) (e : event) (w : world) :
  Q e -> extends_by Q w (emits [e] w).
Proof. intros H. exists [e]. split; [reflexivity | now constructor]. Qed.

Lemma extends_by_same_events (Q : event -> Prop) (w w' : world) :
  events w' = events w -> extends_by Q w w'.
Proof. intros H. exists []. split; [now rewrite app_nil_r | constructor]. Qed.

Lemma stop_stays_refl (w : world) : stop_stays w w.
Proof. intros H. exact H. Qed.

Lemma stop_stays_trans (a b c : world) :
  stop_stays a b -> stop_stays b c -> stop_stays a c.
Proof. unfold stop_stays. auto. Qed.

Lemma stop_stays_emit (e : event) (w : world) : True -> stop_stays w (emits [e] w).
Proof. intros _ H. exact H. Qed.

Lemma stop_stays_set_stop (w : world) : stop_stays w (snd (set_stop true w)).
Proof. intros _. reflexivity. Qed.

Lemma stop_stays_set_config (cv : config) (w : world) :
  stop_stays w (snd (set_config cv w)).
Proof. intros H. exact H. Qed.

Lemma stop_stays_set_current (b : bool) (w : world) :
  stop_stays w (snd (set_current_process b w)).
Proof. intros H. exact H. Qed.

Lemma stop_stays_record (r : job_result) (w : world) :
  stop_stays w (snd (record_result r w)).
Proof. intros H. exact H. Qed.

(** Nothing that the UI thread does resets the stop flag. *)
Lemma ui_stop_stays (a : ui_action) (w : world) :
  _stop_event w = true -> _stop_event (snd (ui a w)) = true.
Proof.
  exact (preserves_ui stop_stays (fun _ => True) stop_stays_refl stop_stays_trans
           stop_stays_emit stop_stays_set_stop stop_stays_set_config I I
           a w (fst (ui a w)) (snd (ui a w)) (surjective_pairing _)).
Qed.

Lemma extends_by_ui_event_unread (rest : list stream_event) (w : world) :
  extends_by ui_event w (snd (unread rest w)).
Proof.
  refine (preserves_unread (extends_by ui_event) ui_event
            (extends_by_refl _) (extends_by_trans _) (extends_by_emit _)
            _ _ _ _ rest w (fst (unread rest w)) (snd (unread rest w))
            (surjective_pairing _)).
  - intros w0. now apply extends_by_same_events.
  - intros cv w0. now apply extends_by_same_events.
  - now left.
  - now right.
Qed.

Lemma read_output_stop_stays (stream : list stream_event) (w : world) :
  _stop_event w = true -> _stop_event (snd (read_output stream w)) = true.
Proof.
  exact (preserves_read_output stop_stays (fun _ => True) stop_stays_refl
           stop_stays_trans stop_stays_emit stop_stays_set_stop
           stop_stays_set_config I I (fun _ => I) (fun _ _ => I)
           stream w (fst (read_output stream w)) (snd (read_output stream w))
           (surjective_pairing _)).
Qed.

(** Once the stop flag is set the loop reads on without looking at the
    lines. *)
Lemma read_output_stopped (stream : list stream_event) :
  forall w, _stop_event w = true -> read_output stream w = unread stream w.
Proof.
  induction stream as [|[raw|a] stream IH]; intros w H; [reflexivity | |].
  - cbn [read_output unread].
    rewrite (bind_ok get_stop _ w w (_stop_event w) eq_refl). now rewrite H.
  - cbn [read_output unread].
    rewrite !(bind_ok_snd _ _ _ tt (ui_ok a w)).
    apply IH. now apply ui_stop_stays.
Qed.

Lemma ui_event_projections (es : list event) :
  Forall ui_event es -> debug_queue es = [] /\ progress_queue es = [].
Proof.
  induction 1 as [|e es [->| ->] _ [IH1 IH2]]; simpl; auto.
Qed.

Lemma debug_queue_app (a b : list event) :
  debug_queue (a ++ b) = (debug_queue a ++ debug_queue b)%list.
Proof.
  induction a as [|e a IH]; [reflexivity|].
  destruct e; simpl; rewrite IH; reflexivity.
Qed.

Lemma progress_queue_app (a b : list event) :
  progress_queue (a ++ b) = (progress_queue a ++ progress_queue b)%list.
Proof.
  induction a as [|e a IH]; [reflexivity|].
  destruct e; simpl; rewrite IH; reflexivity.
Qed.

Lemma debug_queue_progress_events (line : string) :
  debug_queue (progress_events line) = [].
Proof.
  unfold progress_events.
  destruct (Py.contains "out_time_ms=" line); [reflexivity|].
  destruct (Py.contains "progress=end" line); reflexivity.
Qed.

Lemma debug_queue_line_events (lines : list string) :
  debug_queue (flat_map line_events lines)
  = filter (fun l => negb (Py.is_empty l)) (map Py.strip lines).
Proof.
  induction lines as [|raw lines IH]; [reflexivity|].
  cbn [flat_map map filter]. rewrite debug_queue_app, IH.
  unfold line_events. destruct (Py.is_empty (Py.strip raw)); [reflexivity|].
  rewrite debug_queue_app, debug_queue_progress_events. reflexivity.
Qed.

(** X2.  While no stop is requested the worker forwards every line of the
    process to the debug channel, trimmed, in the order in which it was
    printed, and drops the lines that are blank after trimming; the
    progress events of a line come before the line itself.  Applying
    settings in the meantime changes nothing of it. *)
Theorem read_output_forwards_lines :
  forall (stream : list stream_event) (w : world),
    _stop_event w = false ->
    no_stop (stream_actions stream) = true ->
    exists cv,
      read_output stream w
      = (Ok tt,
         with_config cv (emits (flat_map line_events (output_lines stream)) w))
      /\ debug_queue (events (snd (read_output stream w)))
         = (debug_queue (events w)
              ++ filter (fun l => negb (Py.is_empty l))
                        (map Py.strip (output_lines stream)))%list.
Proof.
  intros stream w Hstop Hns.
  destruct (read_output_quiet stream w Hstop Hns) as [cv Hcv].
  exists cv. split; [exact Hcv|].
  rewrite Hcv. cbn [snd with_config emits events].
  now rewrite debug_queue_app, debug_queue_line_events.
Qed.

Lemma read_output_forwards_lines_witness :
  debug_queue (events (snd (read_output sample_output (initial_world default_config))))
  = ["frame=  10 fps=0.0"; "out_time_ms=400000"; "progress=end"].
Proof.
  destruct (read_output_forwards_lines sample_output (initial_world default_config))
    as (cv & _ & H); [reflexivity | reflexivity |].
  rewrite H. reflexivity.
Defined.

(** X3.  Once the stop flag is set the worker forwards nothing any more:
    whatever the process still prints, reading the output adds no debug and
    no progress event; only the UI thread adds events, and the flag stays
    set. *)
Theorem read_output_after_stop :
  forall (stream : list stream_event) (w : world),
    _stop_event w = true ->
    exists w',
      read_output stream w = (Ok tt, w')
      /\ extends_by ui_event w w'
      /\ _stop_event w' = true
      /\ debug_queue (events w') = debug_queue (events w)
      /\ progress_queue (events w') = progress_queue (events w).
Proof.
  intros stream w Hstop. exists (snd (read_output stream w)).
  split; [apply read_output_ok|].
  assert (extends_by ui_event w (snd (read_output stream w))) as Hext.
  { rewrite (read_output_stopped stream w Hstop). apply extends_by_ui_event_unread. }
  split; [exact Hext|]. split.
  - now apply read_output_stop_stays.
  - destruct Hext as (es & E & F). rewrite E.
    destruct (ui_event_projections es F) as [Hd Hp].
    rewrite debug_queue_app, progress_queue_app, Hd, Hp, !app_nil_r. now split.
Qed.

Lemma read_output_after_stop_witness :
  debug_queue (events (snd (read_output late_output
                              (snd (set_stop true (initial_world default_config))))))
  = [].
Proof.
  destruct (read_output_after_stop late_output
              (snd (set_stop true (initial_world default_config))) eq_refl)
    as (w' & Hrun & _ & _ & Hd & _).
  rewrite Hrun. exact Hd.
Defined.

(* ================================================================== *)
(** * The Transcode Worker: how a job ends *)
(* ================================================================== *)

Lemma get_audio_info_run (pr : probe_result) (input_file : string) (w : world) :
  get_audio_info pr input_file w
  = (Ok (probe_info pr), emits (probe_events pr input_file) w).
Proof.
  destruct pr; [apply get_audio_info_raises | apply get_audio_info_ok].
Qed.

(** The worker up to the [try], from a world in which no stop is
    requested. *)
Lemma process_video_announce (p : VideoProcessor) (env : job_env)
      (input_path output_path : string) (w : world) (body : list string -> M outcome) :
  _stop_event w = false ->
  (stop <- get_stop ;;
   if stop then ret Stopped
   else
     '(codec, bitrate) <- get_audio_info (probe env) input_path ;;
     let audio_filters := build_audio_filter p in
     let cmd := ffmpeg_cmd input_path codec bitrate audio_filters output_path in
     emit (Log (nl ++ "[PROCESSING] " ++ Path.name input_path)) ;;
     emit (Debug ("[DEBUG] Command: " ++ Py.join " " cmd)) ;;
     body cmd) w
  = body (job_cmd p env input_path output_path)
         (emits (announce_events p env input_path output_path) w).
Proof.
  intros Hstop.
  rewrite (bind_ok get_stop _ w w (_stop_event w) eq_refl). rewrite Hstop.
  rewrite (bind_ok _ _ w _ _ (get_audio_info_run (probe env) input_path w)).
  unfold announce_events, job_cmd.
  destruct (probe_info (probe env)) as [codec bitrate]. cbn [fst snd].
  cbv zeta.
  rewrite (bind_ok _ _ _ _ tt (emit_run _ _)), emits_app.
  rewrite (bind_ok _ _ _ _ tt (emit_run _ _)), emits_app.
  now rewrite <- app_assoc.
Qed.

Lemma process_video_started (p : VideoProcessor) (env : job_env)
      (input_path output_path : string) (w : world) :
  _stop_event w = false ->
  process_video p env input_path output_path w
  = try_finally
      (try_except
         (worker_attempt env (job_cmd p env input_path output_path) output_path)
         worker_crash)
      (set_current_process false)
      (emits (announce_events p env input_path output_path) w).
Proof.
  intros Hstop. unfold process_video.
  rewrite (bind_ok get_stop _ w w (_stop_event w) eq_refl). rewrite Hstop.
  rewrite (bind_ok _ _ w _ _ (get_audio_info_run (probe env) input_path w)).
  unfold announce_events, job_cmd.
  destruct (probe_info (probe env)) as [codec bitrate]. cbn [fst snd].
  cbv zeta.
  rewrite (bind_ok _ _ _ _ tt (emit_run _ _)), emits_app.
  rewrite (bind_ok _ _ _ _ tt (emit_run _ _)), emits_app.
  rewrite <- app_assoc. reflexivity.
Qed.

Lemma worker_attempt_completes (env : job_env) (cmd : list string)
      (output_path : string) (w : world)
      (stream : list stream_event) (during_wait : list ui_action) (returncode : Z) :
  _stop_event w = false ->
  no_stop (ui_before_spawn env) = true ->
  spawn env = Spawned stream during_wait returncode ->
  no_stop (stream_actions stream) = true ->
  no_stop during_wait = true ->
  exists cv,
    worker_attempt env cmd output_path w
    = (Ok (exit_outcome returncode),
       World false true cv
             (events w ++ [Spawn cmd] ++ flat_map line_events (output_lines stream)
                ++ [Wait returncode] ++ exit_events returncode output_path)
             (results w)).
Proof.
  intros Hstop Hui Hspawn Hstream Hwait. unfold worker_attempt. rewrite Hspawn.
  destruct (ui_all_no_stop _ w Hui) as [cv1 H1].
  rewrite (bind_ok _ _ _ _ tt H1).
  rewrite (bind_ok _ _ _ _ tt (emit_run _ _)).
  rewrite (bind_ok (set_current_process true) _ _ _ tt eq_refl).
  match goal with
  | |- context [bind (read_output stream) _ ?w0] =>
      destruct (read_output_quiet stream w0 Hstop Hstream) as [cv2 H2];
      rewrite (bind_ok _ _ _ _ tt H2)
  end.
  match goal with
  | |- context [bind (ui_all during_wait) _ ?w0] =>
      destruct (ui_all_no_stop during_wait w0 Hwait) as [cv3 H3];
      rewrite (bind_ok _ _ _ _ tt H3)
  end.
  rewrite (bind_ok _ _ _ _ tt (emit_run _ _)).
  match goal with
  | |- context [bind get_stop _ ?w0] =>
      rewrite (bind_ok get_stop _ w0 w0 (_stop_event w0) eq_refl)
  end.
  cbn [_stop_event with_config emits snd set_current_process].
  rewrite Hstop. exists cv3. unfold exit_outcome, exit_events.
  destruct (returncode =? 0)%Z.
  - rewrite (bind_ok _ _ _ _ tt (emit_run _ _)).
    rewrite (bind_ok _ _ _ _ tt (emit_run _ _)).
    unfold ret, emits, with_config.
    cbn [_stop_event _current_process config_vars events results].
    repeat rewrite <- app_assoc. reflexivity.
  - rewrite (bind_ok _ _ _ _ tt (emit_run _ _)).
    unfold ret, emits, with_config.
    cbn [_stop_event _current_process config_vars events results].
    repeat rewrite <- app_assoc. reflexivity.
Qed.

Lemma process_video_completes (p : VideoProcessor) (env : job_env)
      (input_path output_path : string) (w : world)
      (stream : list stream_event) (during_wait : list ui_action) (returncode : Z) :
  _stop_event w = false ->
  no_stop (ui_before_spawn env) = true ->
  spawn env = Spawned stream during_wait returncode ->
  no_stop (stream_actions stream) = true ->
  no_stop during_wait = true ->
  exists cv,
    process_video p env input_path output_path w
    = (Ok (exit_outcome returncode),
       World false false cv
             (events w
                ++ announce_events p env input_path output_path
                ++ [Spawn (job_cmd p env input_path output_path)]
                ++ flat_map line_events (output_lines stream)
                ++ [Wait returncode]
                ++ exit_events returncode output_path)
             (results w)).
Proof.
  intros Hstop Hui Hspawn Hstream Hwait.
  rewrite (process_video_started p env input_path output_path w Hstop).
  destruct (worker_attempt_completes env (job_cmd p env input_path output_path)
              output_path (emits (announce_events p env input_path output_path) w)
              stream during_wait returncode Hstop Hui Hspawn Hstream Hwait)
    as [cv Hcv].
  exists cv. unfold try_finally, try_except. rewrite Hcv.
  cbn [set_current_process _stop_event _current_process config_vars events results
       emits].
  repeat rewrite <- app_assoc. reflexivity.
Qed.

(** X4.  When no stop is requested while a job runs, the worker probes,
    announces the job, spawns ffmpeg with the probed codec and bit rate and
    the filter chain, forwards the output, waits, and then decides by the
    exit code alone: code 0 gives Succeeded with a success log and a final
    progress event of 100, any other code gives Failed with a log that
    carries the code.  The process handle is cleared when it returns. *)
Theorem process_video_exit_code :
  forall (p : VideoProcessor) (env : job_env) (input_path output_path : string)
         (w : world) (stream : list stream_event) (during_wait : list ui_action)
         (returncode : Z),
    _stop_event w = false ->
    no_stop (ui_before_spawn env) = true ->
    spawn env = Spawned stream during_wait returncode ->
    no_stop (stream_actions stream) = true ->
    no_stop during_wait = true ->
    exists cv,
      process_video p env input_path output_path w
      = (Ok (exit_outcome returncode),
         World false false cv
               (events w
                  ++ announce_events p env input_path output_path
                  ++ [Spawn (job_cmd p env input_path output_path)]
                  ++ flat_map line_events (output_lines stream)
                  ++ [Wait returncode]
                  ++ exit_events returncode output_path)
               (results w))
      /\ (returned (exit_outcome returncode) = true <-> returncode = 0%Z).
Proof.
  intros p env input_path output_path w stream during_wait returncode
         Hstop Hui Hspawn Hstream Hwait.
  destruct (process_video_completes p env input_path output_path w stream
              during_wait returncode Hstop Hui Hspawn Hstream Hwait) as [cv Hcv].
  exists cv. split; [exact Hcv|].
  unfold exit_outcome. destruct (Z.eqb_spec returncode 0); simpl; split;
    intros; congruence.
Qed.

Lemma process_video_exit_code_witness :
  fst (process_video (new_VideoProcessor default_config)
         (quiet_env [Out ("progress=end" ++ nl)] 0) "/v/a.mp4"
         "/v/processed/a_enhanced.mkv" (initial_world default_config))
  = Ok Succeeded
  /\ fst (process_video (new_VideoProcessor default_config)
            (quiet_env [Out ("Conversion failed!" ++ nl)] 1) "/v/a.mp4"
            "/v/processed/a_enhanced.mkv" (initial_world default_config))
     = Ok Failed.
Proof.
  split.
  - destruct (process_video_exit_code (new_VideoProcessor default_config)
                (quiet_env [Out ("progress=end" ++ nl)] 0) "/v/a.mp4"
                "/v/processed/a_enhanced.mkv" (initial_world default_config)
                [Out ("progress=end" ++ nl)] [] 0%Z)
      as (cv & H & _); [reflexivity .. |].
    rewrite H. reflexivity.
  - destruct (process_video_exit_code (new_VideoProcessor default_config)
                (quiet_env [Out ("Conversion failed!" ++ nl)] 1) "/v/a.mp4"
                "/v/processed/a_enhanced.mkv" (initial_world default_config)
                [Out ("Conversion failed!" ++ nl)] [] 1%Z)
      as (cv & H & _); [reflexivity .. |].
    rewrite H. reflexivity.
Defined.

Lemma same_results_refl (w : world) : same_results w w.
Proof. reflexivity. Qed.

Lemma same_results_trans (a b c : world) :
  same_results a b -> same_results b c -> same_results a c.
Proof. unfold same_results. congruence. Qed.

Lemma ui_all_same_results (l : list ui_action) (w : world) :
  results (snd (ui_all l w)) = results w.
Proof.
  refine (preserves_ui_all same_results (fun _ => True) same_results_refl
            same_results_trans _ _ _ I I l w (fst (ui_all l w)) (snd (ui_all l w))
            (surjective_pairing _)); intros; reflexivity.
Qed.

Lemma ui_all_extends (l : list ui_action) (w : world) :
  extends_by ui_event w (snd (ui_all l w)).
Proof.
  refine (preserves_ui_all (extends_by ui_event) ui_event
            (extends_by_refl _) (extends_by_trans _) (extends_by_emit _)
            _ _ _ _ l w (fst (ui_all l w)) (snd (ui_all l w))
            (surjective_pairing _)).
  - intros w0. now apply extends_by_same_events.
  - intros cv w0. now apply extends_by_same_events.
  - now left.
  - now right.
Qed.

Lemma spawned_app (a b : list event) :
  spawned (a ++ b) = (spawned a ++ spawned b)%list.
Proof.
  induction a as [|e a IH]; [reflexivity|].
  destruct e; simpl; rewrite IH; reflexivity.
Qed.

Lemma spawned_ui_events (es : list event) : Forall ui_event es -> spawned es = [].
Proof. induction 1 as [|e es [->| ->] _ IH]; simpl; auto. Qed.

Lemma spawned_probe_events (pr : probe_result) (input_file : string) :
  spawned (probe_events pr input_file) = [].
Proof. destruct pr; reflexivity. Qed.

(** X5.  When ffmpeg cannot be spawned the worker does not raise: the job
    ends Failed, the error text goes to the debug channel and, as a
    [CRASH] line, to the log; no process is spawned or waited for, and the
    process handle is clear. *)
Theorem process_video_spawn_failure :
  forall (p : VideoProcessor) (env : job_env) (input_path output_path : string)
         (w : world) (msg : string),
    _stop_event w = false ->
    spawn env = SpawnRaises msg ->
    exists stop cv es,
      process_video p env input_path output_path w
      = (Ok Failed,
         World stop false cv
               (events w
                  ++ announce_events p env input_path output_path
                  ++ es
                  ++ [Debug ("[DEBUG] Process crash: " ++ msg);
                      Log ("[CRASH] " ++ msg)])
               (results w))
      /\ Forall ui_event es
      /\ spawned (announce_events p env input_path output_path ++ es
                    ++ [Debug ("[DEBUG] Process crash: " ++ msg);
                        Log ("[CRASH] " ++ msg)]) = [].
Proof.
  intros p env input_path output_path w msg Hstop Hspawn.
  rewrite (process_video_started p env input_path output_path w Hstop).
  set (w0 := emits (announce_events p env input_path output_path) w).
  destruct (ui_all_extends (ui_before_spawn env) w0) as (es & Hes & Fes).
  pose proof (ui_all_same_results (ui_before_spawn env) w0) as Hres.
  set (w1 := snd (ui_all (ui_before_spawn env) w0)) in *.
  exists (_stop_event w1), (config_vars w1), es. split; [|split].
  - unfold try_finally, try_except, worker_attempt.
    rewrite (bind_ok _ _ _ _ tt (ui_all_ok (ui_before_spawn env) w0)).
    rewrite Hspawn. unfold raise, worker_crash.
    rewrite (bind_ok _ _ _ _ tt (emit_run _ _)).
    rewrite (bind_ok _ _ _ _ tt (emit_run _ _)).
    unfold ret, set_current_process, emits. fold w1.
    cbn [_stop_event _current_process config_vars events results message].
    rewrite Hes, Hres. unfold w0, emits. cbn [events results].
    repeat rewrite <- app_assoc. reflexivity.
  - exact Fes.
  - unfold announce_events.
    rewrite !spawned_app, spawned_probe_events, (spawned_ui_events es Fes).
    reflexivity.
Qed.

Lemma process_video_spawn_failure_witness :
  fst (process_video (new_VideoProcessor default_config) no_ffmpeg_env "/v/a.mp4"
         "/v/processed/a_enhanced.mkv" (initial_world default_config))
  = Ok Failed.
Proof.
  destruct (process_video_spawn_failure (new_VideoProcessor default_config)
              no_ffmpeg_env "/v/a.mp4" "/v/processed/a_enhanced.mkv"
              (initial_world default_config) "ffmpeg not found" eq_refl eq_refl)
    as (stop & cv & es & H & _ & _).
  rewrite H. reflexivity.
Defined.

Lemma process_video_same_results (p : VideoProcessor) (env : job_env)
      (input_path output_path : string) (w : world) :
  results (snd (process_video p env input_path output_path w)) = results w.
Proof.
  refine (preserves_process_video same_results (fun _ => True) same_results_refl
            same_results_trans _ _ _ _ I I (fun _ => I) (fun _ _ => I) (fun _ => I)
            (fun _ _ => I) (fun _ _ => I) p env input_path output_path w
            (fst (process_video p env input_path output_path w))
            (snd (process_video p env input_path output_path w))
            (surjective_pairing _)); intros; reflexivity.
Qed.

(** X6.  The worker never raises, whatever the probe, the spawn and the UI
    thread do.  It does not touch the record of finished jobs.  Once it is
    past its first stop check it returns with the process handle cleared.
    It reports Succeeded only when ffmpeg was spawned and exited with code
    0 and no stop was requested by then, and Stopped only when a stop was
    requested. *)
Theorem process_video_never_raises :
  forall (p : VideoProcessor) (env : job_env) (input_path output_path : string)
         (w : world),
  exists o w',
    process_video p env input_path output_path w = (Ok o, w')
    /\ results w' = results w
    /\ (_stop_event w = false -> _current_process w' = false)
    /\ (o = Succeeded ->
        exists stream during_wait,
          spawn env = Spawned stream during_wait 0%Z /\ _stop_event w' = false)
    /\ (o = Stopped -> _stop_event w' = true).
Proof.
  intros p env input_path output_path w.
  pose proof (process_video_same_results p env input_path output_path w) as Hres.
  destruct (_stop_event w) eqn:Hstop.
  - exists Stopped, w. unfold process_video.
    rewrite (bind_ok get_stop _ w w (_stop_event w) eq_refl), Hstop.
    repeat split; try discriminate; auto.
  - revert Hres.
    rewrite (process_video_started p env input_path output_path w Hstop).
    set (w0 := emits (announce_events p env input_path output_path) w).
    unfold try_finally, try_except, worker_attempt.
    rewrite (bind_ok _ _ _ _ tt (ui_all_ok (ui_before_spawn env) w0)).
    set (w1 := snd (ui_all (ui_before_spawn env) w0)).
    destruct (spawn env) as [msg|stream during_wait returncode] eqn:Hspawn.
    + unfold raise, worker_crash.
      rewrite (bind_ok _ _ _ _ tt (emit_run _ _)).
      rewrite (bind_ok _ _ _ _ tt (emit_run _ _)).
      unfold ret, set_current_process. cbn [snd].
      intros Hres. eexists _, _. split; [reflexivity|].
      repeat split; try discriminate; auto.
    + rewrite (bind_ok _ _ _ _ tt (emit_run _ _)).
      rewrite (bind_ok (set_current_process true) _ _ _ tt eq_refl).
      match goal with
      | |- context [bind (read_output stream) _ ?x] =>
          rewrite (bind_ok _ _ _ _ tt (read_output_ok stream x));
          set (w2 := snd (read_output stream x))
      end.
      rewrite (bind_ok _ _ _ _ tt (ui_all_ok during_wait w2)).
      set (w3 := snd (ui_all during_wait w2)).
      rewrite (bind_ok _ _ _ _ tt (emit_run _ _)).
      rewrite (bind_ok get_stop _ _ _ _ eq_refl).
      cbn [_stop_event emits].
      destruct (_stop_event w3) eqn:Hs3.
      * rewrite (bind_ok _ _ _ _ tt (emit_run _ _)).
        unfold ret, set_current_process. cbn [snd].
        intros Hres. eexists _, _. split; [reflexivity|].
        repeat split; try discriminate; auto.
      * destruct (Z.eqb_spec returncode 0) as [->|Hrc].
        -- rewrite (bind_ok _ _ _ _ tt (emit_run _ _)).
           rewrite (bind_ok _ _ _ _ tt (emit_run _ _)).
           unfold ret, set_current_process. cbn [snd].
           intros Hres. eexists _, _. split; [reflexivity|].
           repeat split; try discriminate; auto.
           exists stream, during_wait. split; [reflexivity | exact Hs3].
        -- rewrite (bind_ok _ _ _ _ tt (emit_run _ _)).
           unfold ret, set_current_process. cbn [snd].
           intros Hres. eexists _, _. split; [reflexivity|].
           repeat split; try discriminate; auto.
Qed.

Lemma process_video_never_raises_witness :
  _current_process
    (snd (process_video (new_VideoProcessor default_config)
            (quiet_env [Out ("progress=end" ++ nl)] 0) "/v/a.mp4"
            "/v/processed/a_enhanced.mkv" (initial_world default_config)))
  = false.
Proof.
  destruct (process_video_never_raises (new_VideoProcessor default_config)
              (quiet_env [Out ("progress=end" ++ nl)] 0) "/v/a.mp4"
              "/v/processed/a_enhanced.mkv" (initial_world default_config))
    as (o1 & w1 & Hrun & _ & Hcp & _).
  rewrite Hrun. apply Hcp. reflexivity.
Defined.

(* ================================================================== *)
(** * Settings *)
(* ================================================================== *)

Lemma lstrip_no_lead (s : string) : leads_with_space (Py.lstrip s) = false.
Proof.
  induction s as [|c s IH]; [reflexivity|].
  simpl. destruct (Py.isspace c) eqn:E; [exact IH | simpl; exact E].
Qed.

Lemma lstrip_fixed (s : string) : leads_with_space s = false -> Py.lstrip s = s.
Proof. destruct s as [|c s]; simpl; [reflexivity|]. now intros ->. Qed.

Lemma rstrip_lead (s : string) :
  leads_with_space s = false -> leads_with_space (Py.rstrip s) = false.
Proof.
  destruct s as [|c s]; [reflexivity|]. simpl. intros Hc.
  destruct (Py.rstrip s); simpl; [rewrite Hc; exact Hc | exact Hc].
Qed.

Lemma rstrip_cons (c : ascii) (s : string) :
  Py.rstrip (String c s)
  = match Py.rstrip s with
    | EmptyString => if Py.isspace c then EmptyString else String c EmptyString
    | r => String c r
    end.
Proof. reflexivity. Qed.

Lemma rstrip_idempotent (s : string) : Py.rstrip (Py.rstrip s) = Py.rstrip s.
Proof.
  induction s as [|c s IH]; [reflexivity|].
  rewrite rstrip_cons. destruct (Py.rstrip s) as [|d r] eqn:E.
  - destruct (Py.isspace c) eqn:Ec; [reflexivity|].
    rewrite rstrip_cons. simpl. now rewrite Ec.
  - rewrite rstrip_cons, IH. reflexivity.
Qed.

Lemma rstrip_no_trail (s : string) : ends_with_space (Py.rstrip s) = false.
Proof.
  induction s as [|c s IH]; [reflexivity|].
  rewrite rstrip_cons. destruct (Py.rstrip s) as [|d r] eqn:E.
  - destruct (Py.isspace c) eqn:Ec; [reflexivity | simpl; exact Ec].
  - exact IH.
Qed.

Lemma strip_idempotent (s : string) : Py.strip (Py.strip s) = Py.strip s.
Proof.
  unfold Py.strip.
  rewrite (lstrip_fixed (Py.rstrip (Py.lstrip s))).
  - apply rstrip_idempotent.
  - apply rstrip_lead, lstrip_no_lead.
Qed.

Lemma strip_trimmed (s : string) :
  leads_with_space (Py.strip s) = false /\ ends_with_space (Py.strip s) = false.
Proof.
  unfold Py.strip. split; [apply rstrip_lead, lstrip_no_lead | apply rstrip_no_trail].
Qed.

Lemma apply_settings_extension_dotted (form : settings_form) (cv : config)
      (e : string) :
  In e (cv_supported_extensions (apply_settings form cv)) ->
  Py.startswith_char "." e = true.
Proof.
  cbn [apply_settings cv_supported_extensions]. rewrite filter_In. now intros [_ H].
Qed.

(** X7.  After Apply Settings the list of supported extensions holds
    exactly the comma-separated pieces of the entry that, once trimmed,
    begin with a dot: every stored extension begins with ["."], has no
    white space around it and is not empty; a piece without a leading dot is
    dropped without notice, and what was configured before plays no part. *)
Theorem apply_settings_extensions :
  forall (form : settings_form) (cv : config) (e : string),
    (In e (cv_supported_extensions (apply_settings form cv))
     <-> exists piece, In piece (Py.split "," (extensions_var form))
                       /\ e = Py.strip piece
                       /\ Py.startswith_char "." e = true)
    /\ (In e (cv_supported_extensions (apply_settings form cv)) ->
        Py.startswith_char "." e = true
        /\ e <> ""
        /\ leads_with_space e = false
        /\ ends_with_space e = false).
Proof.
  intros form cv e.
  assert (In e (cv_supported_extensions (apply_settings form cv))
          <-> exists piece, In piece (Py.split "," (extensions_var form))
                            /\ e = Py.strip piece
                            /\ Py.startswith_char "." e = true) as Hiff.
  { cbn [apply_settings cv_supported_extensions]. rewrite filter_In, in_map_iff.
    split.
    - intros [(piece & <- & Hin) Hdot]. exists piece. auto.
    - intros (piece & Hin & -> & Hdot). split; [exists piece; auto | exact Hdot]. }
  split; [exact Hiff|].
  intros Hin. apply Hiff in Hin. destruct Hin as (piece & _ & -> & Hdot).
  destruct (strip_trimmed piece) as [Hl Ht].
  repeat split; auto.
  intros E. rewrite E in Hdot. discriminate Hdot.
Qed.

Lemma apply_settings_extensions_witness :
  cv_supported_extensions (apply_settings untidy_form default_config)
  = [".mkv"; ".MOV"; "."]
  /\ leads_with_space ".MOV" = false.
Proof.
  split; [reflexivity|].
  apply (apply_settings_extensions untidy_form default_config ".MOV").
  simpl. auto.
Defined.

(** X8.  After Apply Settings the output folder name and the output suffix
    are never empty and carry no white space around them: an entry that is
    blank after trimming falls back on the default ("processed",
    "_enhanced.mkv"), any other entry is stored trimmed. *)
Theorem apply_settings_output_names :
  forall (form : settings_form) (cv : config),
    let cv' := apply_settings form cv in
    cv_output_folder cv' <> ""
    /\ cv_output_suffix cv' <> ""
    /\ leads_with_space (cv_output_folder cv') = false
    /\ ends_with_space (cv_output_folder cv') = false
    /\ leads_with_space (cv_output_suffix cv') = false
    /\ ends_with_space (cv_output_suffix cv') = false
    /\ (Py.strip (folder_var form) = "" -> cv_output_folder cv' = DEFAULT_OUTPUT_FOLDER)
    /\ (Py.strip (folder_var form) <> "" ->
        cv_output_folder cv' = Py.strip (folder_var form))
    /\ (Py.strip (suffix_var form) = "" -> cv_output_suffix cv' = DEFAULT_OUTPUT_SUFFIX)
    /\ (Py.strip (suffix_var form) <> "" ->
        cv_output_suffix cv' = Py.strip (suffix_var form)).
Proof.
  intros form cv. cbn [apply_settings cv_output_folder cv_output_suffix].
  unfold or_default.
  destruct (strip_trimmed (folder_var form)) as [Hfl Hft].
  destruct (strip_trimmed (suffix_var form)) as [Hsl Hst].
  destruct (Py.strip (folder_var form)) as [|a f] eqn:Ef;
    destruct (Py.strip (suffix_var form)) as [|b s] eqn:Es;
    cbn [Py.is_empty]; repeat split; auto; try discriminate;
    try (intros H; now elim H); try (intros H; discriminate H).
Qed.

Lemma apply_settings_output_names_witness :
  cv_output_folder (apply_settings untidy_form default_config) = "processed"
  /\ cv_output_suffix (apply_settings untidy_form default_config) = "_clean.mkv".
Proof.
  destruct (apply_settings_output_names untidy_form default_config)
    as (_ & _ & _ & _ & _ & _ & Hf & _ & _ & Hs).
  split; [apply Hf; reflexivity | rewrite Hs; [reflexivity | discriminate]].
Defined.

Lemma combine_snd_again {A B} (l : list A) :
  forall (v : list B),
    map snd (combine (map snd (combine l v)) v) = map snd (combine l v).
Proof.
  induction l as [|a l IH]; intros [|b v]; simpl; try reflexivity.
  now rewrite IH.
Qed.

(** X9.  Applying the same form twice gives what applying it once gives;
    in particular Start, which applies the settings first, changes nothing
    when Apply Settings was pressed just before. *)
Theorem apply_settings_idempotent :
  forall (form : settings_form) (cv : config),
    apply_settings form (apply_settings form cv) = apply_settings form cv.
Proof.
  intros form cv. unfold apply_settings.
  cbn [cv_equalizer_bands]. now rewrite combine_snd_again.
Qed.

(* ================================================================== *)
(** * The file list *)
(* ================================================================== *)

Lemma str_in_In (x : string) (l : list string) : str_in x l = true <-> In x l.
Proof.
  unfold str_in. rewrite existsb_exists. split.
  - intros (y & Hy & E). apply String.eqb_eq in E. now subst.
  - intros H. exists x. split; [exact H | apply String.eqb_refl].
Qed.

(** What one call adds: new paths only, each once, behind the old ones. *)
Lemma add_to_list_grows (files : list string) :
  forall st,
  exists added,
    file_list (add_to_list files st) = (file_list st ++ added)%list
    /\ incl added (map PurePath.str files)
    /\ NoDup added
    /\ (forall p, In p added -> ~ In p (file_list st))
    /\ List.length (file_box (add_to_list files st))
       = (List.length (file_box st) + List.length added)%nat.
Proof.
  induction files as [|f rest IH]; intros st.
  - exists []. simpl. rewrite app_nil_r.
    repeat split; auto using NoDup_nil; try (intros p []).
  - cbn [add_to_list]. destruct (str_in (PurePath.str f) (file_list st)) eqn:E; cbn [negb].
    + destruct (IH st) as (added & H1 & H2 & H3 & H4 & H5).
      exists added. repeat split; auto.
      intros p Hp. right. now apply H2.
    + destruct (IH {| file_list := (file_list st ++ [PurePath.str f])%list;
                      file_box := (file_box st ++ [(PurePath.name f ++ nl)%string])%list |})
        as (added & H1 & H2 & H3 & H4 & H5).
      cbn [file_list file_box] in *.
      exists (PurePath.str f :: added). repeat split.
      * rewrite H1, <- app_assoc. reflexivity.
      * intros p [<-|Hp]; [now left | right; now apply H2].
      * constructor; [|exact H3]. intros Hin. apply (H4 _ Hin).
        apply in_or_app. right. now left.
      * intros p [<-|Hp] Hin.
        -- apply str_in_In in Hin. congruence.
        -- apply (H4 p Hp). apply in_or_app. now left.
      * rewrite H5, length_app. simpl. lia.
Qed.

Lemma add_to_list_lists (files : list string) :
  forall st f, In f files -> In (PurePath.str f) (file_list (add_to_list files st)).
Proof.
  induction files as [|g rest IH]; intros st f Hin; [destruct Hin|].
  destruct Hin as [<-|Hin].
  - cbn [add_to_list]. destruct (str_in (PurePath.str g) (file_list st)) eqn:E; cbn [negb].
    + destruct (add_to_list_grows rest st) as (added & H1 & _).
      rewrite H1. apply in_or_app. left. now apply str_in_In.
    + destruct (add_to_list_grows rest
                  {| file_list := (file_list st ++ [PurePath.str g])%list;
                     file_box := (file_box st ++ [(PurePath.name g ++ nl)%string])%list |})
        as (added & H1 & _).
      rewrite H1. cbn [file_list]. apply in_or_app. left. apply in_or_app. right. now left.
  - cbn [add_to_list]. destruct (negb _); now apply IH.
Qed.

Lemma add_to_list_known (files : list string) :
  forall st, (forall f, In f files -> In (PurePath.str f) (file_list st)) ->
             add_to_list files st = st.
Proof.
  induction files as [|f rest IH]; intros st H; [reflexivity|].
  cbn [add_to_list].
  assert (str_in (PurePath.str f) (file_list st) = true) as E.
  { apply str_in_In, H. now left. }
  rewrite E. cbn [negb]. apply IH. intros g Hg. apply H. now right.
Qed.

Lemma add_to_list_keeps (files : list string) (st : file_state) :
  (NoDup (file_list st) -> NoDup (file_list (add_to_list files st)))
  /\ (List.length (file_list st) = List.length (file_box st) ->
      List.length (file_list (add_to_list files st))
      = List.length (file_box (add_to_list files st))).
Proof.
  destruct (add_to_list_grows files st) as (added & H1 & H2 & H3 & H4 & H5).
  split.
  - intros Hnd. rewrite H1. apply NoDup_app; auto.
    intros p Hp Hq. exact (H4 p Hq Hp).
  - intros Hlen. rewrite H1, H5, length_app. lia.
Qed.

(** X10.  [add_to_list] only ever appends: the paths already listed keep
    their places, and what is added are normalised paths of the given files
    that were not listed yet, each once.  So a list without duplicates stays
    without duplicates, every given file is listed afterwards, the list and
    the file box stay equally long, and adding the same files a second time
    changes nothing. *)
Theorem add_to_list_no_duplicates :
  forall (files : list string) (st : file_state),
    (exists added,
        file_list (add_to_list files st) = (file_list st ++ added)%list
        /\ incl added (map PurePath.str files)
        /\ (forall p, In p added -> ~ In p (file_list st)))
    /\ (NoDup (file_list st) -> NoDup (file_list (add_to_list files st)))
    /\ (forall f, In f files -> In (PurePath.str f) (file_list (add_to_list files st)))
    /\ (List.length (file_list st) = List.length (file_box st) ->
        List.length (file_list (add_to_list files st))
        = List.length (file_box (add_to_list files st)))
    /\ add_to_list files (add_to_list files st) = add_to_list files st.
Proof.
  intros files st.
  destruct (add_to_list_grows files st) as (added & H1 & H2 & H3 & H4 & H5).
  split; [exists added; auto|]. split; [|split; [|split]].
  - intros Hnd. rewrite H1. apply NoDup_app; auto.
    intros p Hp Hq. exact (H4 p Hq Hp).
  - intros f Hf. now apply add_to_list_lists.
  - intros Hlen. rewrite H1, H5, length_app. lia.
  - apply add_to_list_known. intros f Hf. now apply add_to_list_lists.
Qed.

Lemma add_to_list_no_duplicates_witness :
  NoDup (file_list (add_to_list dropped_files (FileState ["/v/b.mkv"] ["b.mkv"]))).
Proof.
  apply (add_to_list_no_duplicates dropped_files (FileState ["/v/b.mkv"] ["b.mkv"])).
  simpl. constructor; [intros [] | constructor].
Defined.

Lemma lower_char_idempotent (c : ascii) : lower_char (lower_char c) = lower_char c.
Proof.
  destruct c as [[] [] [] [] [] [] [] []]; reflexivity.
Qed.

Lemma lower_idempotent (s : string) : lower (lower s) = lower s.
Proof.
  induction s as [|c s IH]; [reflexivity|].
  simpl. now rewrite lower_char_idempotent, IH.
Qed.

(** X11.  A dropped file is offered to the list only when the lower-cased
    suffix of its name is, letter for letter, one of the configured
    extensions.  The configured extensions themselves are not lower-cased:
    an extension with an upper-case letter matches no file, and when every
    configured extension has one the drop adds nothing.  Once settings have
    been applied a file without a suffix is never accepted. *)
Theorem on_drop_matches_lowercase :
  forall (exts files : list string) (st : file_state),
    (exists added,
        file_list (on_drop exts files st) = (file_list st ++ added)%list
        /\ forall p, In p added ->
             exists f, In f files /\ p = PurePath.str f
                       /\ In (lower (PurePath.suffix f)) exts
                       /\ lower (lower (PurePath.suffix f)) = lower (PurePath.suffix f))
    /\ ((forall e, In e exts -> lower e <> e) -> on_drop exts files st = st)
    /\ (forall form cv f,
           exts = cv_supported_extensions (apply_settings form cv) ->
           PurePath.suffix f = "" ->
           str_in (lower (PurePath.suffix f)) exts = false).
Proof.
  intros exts files st. split; [|split].
  - unfold on_drop.
    destruct (add_to_list_grows
                (filter (fun f => str_in (lower (PurePath.suffix f)) exts) files) st)
      as (added & H1 & H2 & _).
    exists added. split; [exact H1|].
    intros p Hp. apply H2 in Hp. apply in_map_iff in Hp.
    destruct Hp as (f & <- & Hf). apply filter_In in Hf. destruct Hf as [Hf Hm].
    exists f. repeat split; auto.
    + now apply str_in_In.
    + apply lower_idempotent.
  - intros Hup. unfold on_drop.
    replace (filter (fun f => str_in (lower (PurePath.suffix f)) exts) files)
      with (@nil string); [reflexivity|].
    symmetry. induction files as [|f rest IH]; [reflexivity|].
    cbn [filter]. destruct (str_in (lower (PurePath.suffix f)) exts) eqn:E; [|exact IH].
    apply str_in_In in E. exfalso. apply (Hup _ E). apply lower_idempotent.
  - intros form cv f -> Hs. rewrite Hs. change (lower "") with "".
    destruct (str_in "" (cv_supported_extensions (apply_settings form cv))) eqn:E;
      [|reflexivity].
    apply str_in_In in E.
    apply apply_settings_extension_dotted in E. discriminate E.
Qed.

Lemma on_drop_matches_lowercase_witness :
  on_drop [".MKV"; ".Mp4"] dropped_files (FileState [] []) = FileState [] []
  /\ str_in (lower (PurePath.suffix "/v/notes"))
            (cv_supported_extensions (apply_settings untidy_form default_config))
     = false.
Proof.
  destruct (on_drop_matches_lowercase [".MKV"; ".Mp4"] dropped_files (FileState [] []))
    as (_ & Hup & _).
  destruct (on_drop_matches_lowercase
              (cv_supported_extensions (apply_settings untidy_form default_config))
              dropped_files (FileState [] []))
    as (_ & _ & Hno).
  split.
  - apply Hup. intros e [<-|[<-|[]]]; discriminate.
  - apply (Hno untidy_form default_config); reflexivity.
Defined.

(* ================================================================== *)
(** * The consumer of the queues *)
(* ================================================================== *)

Lemma take_log_fold (stopped : bool) (log_q : list string) :
  forall g,
    let g' := fold_left (take_log stopped) log_q g in
    log_text g' = (log_text g ++ displayed (filter (fun m => negb (is_done m)) log_q))%list
    /\ debug_text g' = debug_text g
    /\ overall_progress_value g' = overall_progress_value g
    /\ (existsb is_done log_q = false ->
        file_progress_value g' = file_progress_value g
        /\ status_label g' = status_label g
        /\ process_btn_enabled g' = process_btn_enabled g
        /\ stop_btn_enabled g' = stop_btn_enabled g)
    /\ (existsb is_done log_q = true ->
        file_progress_value g' = 0
        /\ status_label g' = (if stopped then "Stopped by user" else "Finished!")
        /\ process_btn_enabled g' = true
        /\ stop_btn_enabled g' = false).
Proof.
  induction log_q as [|msg rest IH]; intros g.
  - cbv zeta. cbn [fold_left filter existsb displayed map]. rewrite app_nil_r.
    split; [reflexivity|]. split; [reflexivity|]. split; [reflexivity|].
    split; [intros _; repeat split | intros Habs; discriminate Habs].
  - cbv zeta. cbn [fold_left filter existsb].
    destruct (IH (take_log stopped g msg)) as (H1 & H2 & H3 & H4 & H5).
    cbv zeta in *. clear IH.
    assert (take_log stopped g msg
            = if is_done msg then on_processing_finished stopped g else log msg g)
      as Et by reflexivity.
    rewrite Et in *. clear Et.
    destruct (is_done msg) eqn:E; cbn [negb orb].
    + cbn [on_processing_finished log_text debug_text overall_progress_value] in *.
      split; [exact H1|]. split; [exact H2|]. split; [exact H3|].
      split; [intros Habs; discriminate Habs|]. intros _.
      destruct (existsb is_done rest) eqn:Er.
      * now apply H5.
      * destruct (H4 eq_refl) as (A & B & C & D).
        cbn [file_progress_value status_label process_btn_enabled stop_btn_enabled] in *.
        auto.
    + cbn [log log_text debug_text overall_progress_value file_progress_value
           status_label process_btn_enabled stop_btn_enabled] in *.
      split; [rewrite H1, <- app_assoc; reflexivity|].
      split; [exact H2|]. split; [exact H3|]. split; [exact H4 | exact H5].
Qed.

Lemma debug_fold (debug_q : list string) :
  forall g,
    let g' := fold_left (fun g msg => debug msg g) debug_q g in
    debug_text g' = (debug_text g ++ displayed debug_q)%list
    /\ log_text g' = log_text g
    /\ file_progress_value g' = file_progress_value g
    /\ overall_progress_value g' = overall_progress_value g
    /\ status_label g' = status_label g
    /\ process_btn_enabled g' = process_btn_enabled g
    /\ stop_btn_enabled g' = stop_btn_enabled g.
Proof.
  induction debug_q as [|msg rest IH]; intros g.
  - simpl. rewrite app_nil_r. repeat split.
  - cbn [fold_left]. destruct (IH (debug msg g)) as (H1 & H2 & H3 & H4 & H5 & H6 & H7).
    cbn [debug log_text debug_text overall_progress_value file_progress_value
         status_label process_btn_enabled stop_btn_enabled] in *.
    repeat split; auto. rewrite H1, <- app_assoc. reflexivity.
Qed.

Lemma progress_fold (progress_q : list (progress_kind * nat)) :
  forall g,
    let g' := fold_left (fun g item => set_progress item g) progress_q g in
    file_progress_value g'
    = match last_progress file_progress progress_q with
      | Some v => v
      | None => file_progress_value g
      end
    /\ overall_progress_value g'
       = match last_progress overall_progress progress_q with
         | Some v => v
         | None => overall_progress_value g
         end
    /\ log_text g' = log_text g
    /\ debug_text g' = debug_text g
    /\ status_label g' = status_label g
    /\ process_btn_enabled g' = process_btn_enabled g
    /\ stop_btn_enabled g' = stop_btn_enabled g.
Proof.
  induction progress_q as [|[k v] rest IH]; intros g.
  - simpl. repeat split.
  - cbn [fold_left last_progress].
    destruct (IH (set_progress (k, v) g)) as (H1 & H2 & H3 & H4 & H5 & H6 & H7).
    destruct k;
      cbn [set_progress log_text debug_text overall_progress_value
           file_progress_value status_label process_btn_enabled stop_btn_enabled] in *;
      destruct (last_progress file_progress rest);
      destruct (last_progress overall_progress rest);
      repeat split; auto.
Qed.

(** X12.  One pass of [process_events] shows every log message except the
    sentinel, each followed by a newline, in queue order, and every debug
    message likewise; the sentinel itself is never shown.  When the log
    queue held the sentinel, the Start button is enabled again, the Stop
    button is disabled and the status reads "Stopped by user" or
    "Finished!" by the stop flag; otherwise status and buttons are left as
    they were. *)
Theorem process_events_display :
  forall (stopped : bool) (log_q debug_q : list string)
         (progress_q : list (progress_kind * nat)) (g : gui),
    let g' := process_events stopped log_q debug_q progress_q g in
    log_text g'
    = (log_text g ++ displayed (filter (fun m => negb (is_done m)) log_q))%list
    /\ debug_text g' = (debug_text g ++ displayed debug_q)%list
    /\ ~ In (PROCESSING_DONE_TOKEN ++ nl)
            (displayed (filter (fun m => negb (is_done m)) log_q))
    /\ (In PROCESSING_DONE_TOKEN log_q ->
        process_btn_enabled g' = true
        /\ stop_btn_enabled g' = false
        /\ status_label g' = (if stopped then "Stopped by user" else "Finished!"))
    /\ (~ In PROCESSING_DONE_TOKEN log_q ->
        process_btn_enabled g' = process_btn_enabled g
        /\ stop_btn_enabled g' = stop_btn_enabled g
        /\ status_label g' = status_label g).
Proof.
  intros stopped log_q debug_q progress_q g. unfold process_events. cbv zeta.
  destruct (take_log_fold stopped log_q g) as (L1 & L2 & L3 & L4 & L5).
  destruct (debug_fold debug_q (fold_left (take_log stopped) log_q g))
    as (D1 & D2 & D3 & D4 & D5 & D6 & D7).
  destruct (progress_fold progress_q
              (fold_left (fun g msg => debug msg g) debug_q
                         (fold_left (take_log stopped) log_q g)))
    as (P1 & P2 & P3 & P4 & P5 & P6 & P7).
  cbv zeta in *.
  assert (existsb is_done log_q = true <-> In PROCESSING_DONE_TOKEN log_q) as Hin.
  { rewrite existsb_exists. unfold is_done. split.
    - intros (m & Hm & E). apply String.eqb_eq in E. now subst.
    - intros H. exists PROCESSING_DONE_TOKEN. split; [exact H | apply String.eqb_refl]. }
  split; [|split; [|split; [|split]]].
  - now rewrite P3, D2, L1.
  - now rewrite P4, D1, L2.
  - unfold displayed. rewrite in_map_iff. intros (m & E & Hm).
    apply filter_In in Hm. destruct Hm as [_ Hm].
    assert (m = PROCESSING_DONE_TOKEN) as ->.
    { clear Hm. revert E. generalize PROCESSING_DONE_TOKEN as t.
      induction m as [|c m IHm]; intros [|d t] E; simpl in E; try discriminate E.
      - reflexivity.
      - destruct t; discriminate E.
      - destruct m; discriminate E.
      - injection E as -> E. f_equal. now apply IHm. }
    discriminate Hm.
  - intros H. apply Hin in H. destruct (L5 H) as (_ & A & B & C).
    rewrite P6, P7, P5, D6, D7, D5. auto.
  - intros H. assert (existsb is_done log_q = false) as Hf.
    { apply not_true_is_false. intros E. apply H. now apply Hin. }
    destruct (L4 Hf) as (_ & A & B & C).
    rewrite P6, P7, P5, D6, D7, D5. auto.
Qed.

Lemma process_events_display_witness :
  process_btn_enabled
    (process_events false ["[SUCCESS] a_enhanced.mkv"; PROCESSING_DONE_TOKEN] []
       [(file_progress, 100); (overall_progress, 1)] idle_gui) = true.
Proof.
  apply (process_events_display false
           ["[SUCCESS] a_enhanced.mkv"; PROCESSING_DONE_TOKEN] []
           [(file_progress, 100); (overall_progress, 1)] idle_gui).
  simpl. auto.
Defined.

Lemma process_events_file_bar (stopped : bool) (log_q debug_q : list string)
      (progress_q : list (progress_kind * nat)) (g : gui) (v : nat) :
  last_progress file_progress progress_q = Some v ->
  file_progress_value (process_events stopped log_q debug_q progress_q g) = v.
Proof.
  intros H. unfold process_events.
  destruct (progress_fold progress_q
              (fold_left (fun g msg => debug msg g) debug_q
                         (fold_left (take_log stopped) log_q g)))
    as (P1 & _).
  cbv zeta in P1. now rewrite P1, H.
Qed.

(** X13.  The progress queue is drained after the log queue, so the reset
    of the file bar to 0 that the sentinel triggers is overwritten by any
    file-progress event still queued in the same pass: after the pass the
    file bar shows the last queued file-progress value if there is one
    (100 after a job that succeeded), 0 only if there is none and the
    sentinel was seen, and its old value otherwise.  The overall bar shows
    the last queued overall value, or its old value. *)
Theorem process_events_progress :
  forall (stopped : bool) (log_q debug_q : list string)
         (progress_q : list (progress_kind * nat)) (g : gui),
    let g' := process_events stopped log_q debug_q progress_q g in
    file_progress_value g'
    = match last_progress file_progress progress_q with
      | Some v => v
      | None => if existsb is_done log_q then 0 else file_progress_value g
      end
    /\ overall_progress_value g'
       = match last_progress overall_progress progress_q with
         | Some v => v
         | None => overall_progress_value g
         end.
Proof.
  intros stopped log_q debug_q progress_q g. unfold process_events. cbv zeta.
  destruct (take_log_fold stopped log_q g) as (L1 & L2 & L3 & L4 & L5).
  destruct (debug_fold debug_q (fold_left (take_log stopped) log_q g))
    as (D1 & D2 & D3 & D4 & D5 & D6 & D7).
  destruct (progress_fold progress_q
              (fold_left (fun g msg => debug msg g) debug_q
                         (fold_left (take_log stopped) log_q g)))
    as (P1 & P2 & P3 & P4 & P5 & P6 & P7).
  cbv zeta in *. rewrite P1, P2, D3, D4, L3. split; [|reflexivity].
  destruct (last_progress file_progress progress_q); [reflexivity|].
  destruct (existsb is_done log_q) eqn:E.
  - now destruct (L5 eq_refl).
  - now destruct (L4 eq_refl).
Qed.

Example process_events_bar_stays_full :
  file_progress_value
    (process_events false ["[SUCCESS] a_enhanced.mkv"; PROCESSING_DONE_TOKEN] []
       [(file_progress, 100); (overall_progress, 1)] idle_gui) = 100.
Proof. reflexivity. Qed.

(* ================================================================== *)
(** * The prober of the command-line script *)
(* ================================================================== *)











(* ================================================================== *)
(** * From the worker to the progress bar; the file list over time *)
(* ================================================================== *)

Lemma last_progress_app (k : progress_kind) (a b : list (progress_kind * nat)) :
  last_progress k (a ++ b)
  = match last_progress k b with
    | Some v => Some v
    | None => last_progress k a
    end.
Proof.
  induction a as [|[k' v] a IH]; simpl.
  - now destruct (last_progress k b).
  - rewrite IH. destruct (last_progress k b); [reflexivity|].
    reflexivity.
Qed.

(** X16.  A job that runs undisturbed and exits with code 0 leaves 100 as
    the last file-progress value on the progress queue, whatever the
    process printed (also when it printed no progress line at all) and
    whatever was queued before; so the consumer, once it has drained the
    queues, shows a full file bar. *)
Theorem succeeded_job_fills_the_bar :
  forall (p : VideoProcessor) (env : job_env) (input_path output_path : string)
         (w : world) (stream : list stream_event) (during_wait : list ui_action)
         (stopped : bool) (g : gui),
    _stop_event w = false ->
    no_stop (ui_before_spawn env) = true ->
    spawn env = Spawned stream during_wait 0%Z ->
    no_stop (stream_actions stream) = true ->
    no_stop during_wait = true ->
    let w' := snd (process_video p env input_path output_path w) in
    last_progress file_progress (progress_queue (events w')) = Some 100
    /\ file_progress_value
         (process_events stopped (log_queue (events w')) (debug_queue (events w'))
                         (progress_queue (events w')) g) = 100.
Proof.
  intros p env input_path output_path w stream during_wait stopped g
         Hstop Hui Hspawn Hstream Hwait.
  destruct (process_video_completes p env input_path output_path w stream during_wait
              0%Z Hstop Hui Hspawn Hstream Hwait) as (cv & Hrun).
  cbv zeta. rewrite Hrun. cbn [snd events].
  match goal with
  | |- context [progress_queue ?e] => set (es := e)
  end.
  assert (last_progress file_progress (progress_queue es) = Some 100) as Hlast.
  { unfold es. rewrite !progress_queue_app, !last_progress_app. reflexivity. }
  split; [exact Hlast|].
  now apply process_events_file_bar.
Qed.

Lemma succeeded_job_fills_the_bar_witness :
  file_progress_value
    (let w' := snd (process_video (new_VideoProcessor default_config)
                      (quiet_env [Out ("frame=1" ++ nl)] 0) "/v/a.mp4"
                      "/v/processed/a_enhanced.mkv" (initial_world default_config)) in
     process_events false (log_queue (events w')) (debug_queue (events w'))
                    (progress_queue (events w')) idle_gui) = 100.
Proof.
  apply (succeeded_job_fills_the_bar (new_VideoProcessor default_config)
           (quiet_env [Out ("frame=1" ++ nl)] 0) "/v/a.mp4"
           "/v/processed/a_enhanced.mkv" (initial_world default_config)
           [Out ("frame=1" ++ nl)] [] false idle_gui); reflexivity.
Defined.

Lemma on_drop_no_duplicates (exts files : list string) (st : file_state) :
  (NoDup (file_list st) -> NoDup (file_list (on_drop exts files st)))
  /\ (List.length (file_list st) = List.length (file_box st) ->
      List.length (file_list (on_drop exts files st))
      = List.length (file_box (on_drop exts files st))).
Proof.
  unfold on_drop. apply add_to_list_keeps.
Qed.

(** X17.  Whatever the user does to the file list, in whatever order (Add
    Files, drops, Clear List), starting from the empty list of a fresh
    application, the list never holds a path twice, and the file box holds
    exactly one line per listed path. *)
Theorem file_list_invariant :
  forall (ops : list list_op),
    let st := fold_left apply_op ops empty_file_state in
    NoDup (file_list st)
    /\ List.length (file_list st) = List.length (file_box st).
Proof.
  intros ops. cbv zeta.
  assert (forall st0,
             NoDup (file_list st0) ->
             List.length (file_list st0) = List.length (file_box st0) ->
             NoDup (file_list (fold_left apply_op ops st0))
             /\ List.length (file_list (fold_left apply_op ops st0))
                = List.length (file_box (fold_left apply_op ops st0))) as Hgen.
  { induction ops as [|op ops IH]; intros st0 Hnd Hlen; [now split|].
    cbn [fold_left]. apply IH.
    - destruct op as [files|exts files|]; cbn [apply_op].
      + now apply (add_to_list_keeps files st0).
      + now apply (on_drop_no_duplicates exts files st0).
      + constructor.
    - destruct op as [files|exts files|]; cbn [apply_op].
      + now apply (add_to_list_keeps files st0).
      + now apply (on_drop_no_duplicates exts files st0).
      + reflexivity. }
  apply Hgen; [constructor | reflexivity].
Qed.
